(** * DocRAG: the retrieval-augmented query pipeline and its bounded memory

    A shallow embedding of [rag_pipeline.py] (class [RAGPipeline]) and of the
    [/chat/] handler of [main.py].

    Conventions of the embedding.
    - Python [int] is [Z]; [len] is [Z.of_nat (length _)].
    - Python [str] is [string]: the text in UTF-8.  Concatenation, [in],
      [endswith] and [join] act on the bytes as they act on the characters.
      What depends on the characters themselves, [str.lower] (the case
      tables of Unicode) and [s[:n]] (a cut after [n] characters), is not
      computed here: both are fields of the class [Backend], the first with
      the one law the proofs use.
    - [list(set(xs))] iterates a hash set, in an order fixed by the hash
      seed of the process: a field of the class too, with the laws that it
      has the members of [xs], each once.
    - A Python list is a [list]; the only in-place mutation of the module,
      [self.memory.append], acts on the object bound to [self.memory] at that
      moment, and every other update rebinds the attribute, so passing the
      list by value loses nothing.
    - Methods of [RAGPipeline] are computations in the monad [M]: a function
      from the object's state to a result (a value or a raised exception)
      and the state left behind.  A raised exception keeps the mutations
      made before it, as in Python.
    - The language model, the embedding index, the document loaders, the
      splitter are black boxes: fields of the class [Backend].
    - [datetime.datetime.now().isoformat()] is an argument [now]. *)

From Stdlib Require Import ZArith List String Ascii Bool Lia DecimalString.
Import ListNotations.
Local Open Scope string_scope.
Local Open Scope Z_scope.

Set Implicit Arguments.

(* ================================================================== *)
(** ** Python values *)

(** [len(l)] *)
Definition len {A} (l : list A) : Z := Z.of_nat (List.length l).

(** [l[start:]] with Python's treatment of a negative or too large bound.
    [start] is the already evaluated bound, so [l[-n:]] is
    [slice_from (- n) l]; note that [- 0 = 0] selects the whole list. *)
Definition slice_from {A} (start : Z) (l : list A) : list A :=
  let i := if start <? 0 then Z.max 0 (start + len l) else Z.min start (len l) in
  skipn (Z.to_nat i) l.

Definition nl : string := String (ascii_of_nat 10) EmptyString.

(** [needle in hay] on strings. *)
Fixpoint str_in (needle hay : string) : bool :=
  match hay with
  | EmptyString => prefix needle EmptyString
  | String _ t => prefix needle hay || str_in needle t
  end.

(** [s.endswith(suffix)] *)
Definition endswith (s suffix : string) : bool :=
  let n := String.length s in
  let k := String.length suffix in
  Nat.leb k n && String.eqb (substring (n - k) k s) suffix.

(** [sep.join(parts)] *)
Fixpoint join (sep : string) (parts : list string) : string :=
  match parts with
  | [] => ""
  | [p] => p
  | p :: rest => p ++ sep ++ join sep rest
  end.

(* ================================================================== *)
(** ** Exceptions and the method monad *)

Inductive exn : Type :=
| ValueError (msg : string)
| AttributeError (msg : string)
| Exception (msg : string).   (* anything else a black box raises *)

(** [str(e)] *)
Definition str (e : exn) : string :=
  match e with ValueError m | AttributeError m | Exception m => m end.

Inductive result (A : Type) : Type :=
| Ok (a : A)
| Raise (e : exn).
Arguments Ok {A} a.
Arguments Raise {A} e.

(* ================================================================== *)
(** ** Data model *)

(** One entry of [self.memory]: the dict built in [_add_to_memory]. *)
Record Exchange : Type := mkExchange {
  timestamp : string;
  question : string;
  response : string;
  sources : list string;
  exchange_id : Z
}.

(** A langchain [Document]: [page_content] and the two metadata keys the
    module reads or writes. *)
Record Document : Type := mkDocument {
  page_content : string;
  meta_source : option string;
  meta_filename : option string
}.

(** An uploaded file: [file.filename] and the bytes behind [file.file]. *)
Record UploadFile : Type := mkUploadFile {
  filename : string;
  file : string
}.

(** The black boxes the pipeline is wired to, and what the Python runtime
    decides. *)
Class Backend : Type := {
  (** [s.lower()] *)
  lower : string -> string;
  lower_empty : lower "" = "";
  (** [s[:n]], the first [n] characters of [s] *)
  str_prefix : nat -> string -> string;
  (** [list(set(xs))] *)
  list_set : list string -> list string;
  list_set_NoDup : forall xs, NoDup (list_set xs);
  list_set_In : forall xs x, In x (list_set xs) <-> In x xs;
  VectorStore : Type;
  (** [PyPDFLoader(tmp_path).load()] on a copy of the upload *)
  PyPDFLoader_load : UploadFile -> result (list Document);
  (** [TextLoader(tmp_path).load()] *)
  TextLoader_load : UploadFile -> result (list Document);
  (** [open(tmp_path, 'r', encoding='utf-8', errors='ignore').read()] *)
  read_utf8_ignore : UploadFile -> result string;
  (** [self.text_splitter.split_documents] *)
  split_documents : list Document -> list Document;
  (** [FAISS.from_documents(chunks, self.embeddings)] *)
  FAISS_from_documents : list Document -> result VectorStore;
  (** the retriever of a store, [k = 4] *)
  retriever : VectorStore -> string -> result (list Document);
  (** [self.llm | StrOutputParser()] applied to the rendered prompt *)
  llm : string -> result string
}.

Section Pipeline.
Context {B : Backend}.

(** What [_build_chain] stores in [self.rag_chain]: a runnable closed over
    the retriever of the store it was built from.  Prompt, model and the
    memory of [self] are reached when it is invoked. *)
Record Chain : Type := mkChain { chain_store : VectorStore }.

(** The mutable attributes of a [RAGPipeline] object. *)
Record RAGPipeline : Type := mkRAGPipeline {
  vectorstore : option VectorStore;
  rag_chain : option Chain;
  documents_loaded : bool;
  memory : list Exchange;
  max_memory : Z
}.

(** [RAGPipeline.__init__] *)
Definition new_pipeline : RAGPipeline :=
  {| vectorstore := None; rag_chain := None; documents_loaded := false;
     memory := []; max_memory := 20 |}.

(** *** The method monad *)

Definition M (A : Type) : Type := RAGPipeline -> result A * RAGPipeline.

Definition ret {A} (a : A) : M A := fun self => (Ok a, self).

Definition bind {A C} (m : M A) (k : A -> M C) : M C :=
  fun self =>
    match m self with
    | (Ok a, self') => k a self'
    | (Raise e, self') => (Raise e, self')
    end.

Definition raise {A} (e : exn) : M A := fun self => (Raise e, self).

(** [try: body  except Exception as e: handler e] *)
Definition try_except {A} (body : M A) (handler : exn -> M A) : M A :=
  fun self =>
    match body self with
    | (Ok a, self') => (Ok a, self')
    | (Raise e, self') => handler e self'
    end.

(** a call into a black box *)
Definition call {A} (r : result A) : M A := fun self => (r, self).

(** [self.attr] *)
Definition gets {A} (attr : RAGPipeline -> A) : M A := fun self => (Ok (attr self), self).

(** [self.attr = v], one per attribute *)
Definition set_vectorstore (v : option VectorStore) : M unit :=
  fun self => (Ok tt, {| vectorstore := v; rag_chain := rag_chain self;
                         documents_loaded := documents_loaded self;
                         memory := memory self; max_memory := max_memory self |}).
Definition set_rag_chain (c : option Chain) : M unit :=
  fun self => (Ok tt, {| vectorstore := vectorstore self; rag_chain := c;
                         documents_loaded := documents_loaded self;
                         memory := memory self; max_memory := max_memory self |}).
Definition set_documents_loaded (b : bool) : M unit :=
  fun self => (Ok tt, {| vectorstore := vectorstore self; rag_chain := rag_chain self;
                         documents_loaded := b;
                         memory := memory self; max_memory := max_memory self |}).
Definition set_memory (m : list Exchange) : M unit :=
  fun self => (Ok tt, {| vectorstore := vectorstore self; rag_chain := rag_chain self;
                         documents_loaded := documents_loaded self;
                         memory := m; max_memory := max_memory self |}).
Definition set_max_memory (n : Z) : M unit :=
  fun self => (Ok tt, {| vectorstore := vectorstore self; rag_chain := rag_chain self;
                         documents_loaded := documents_loaded self;
                         memory := memory self; max_memory := n |}).

Notation "x <- m ;; k" := (bind m (fun x => k))
  (at level 61, m at next level, right associativity).
Notation "m ;;; k" := (bind m (fun _ => k))
  (at level 61, right associativity).

(* ================================================================== *)
(** ** Conversation memory *)

(** [_add_to_memory] *)
Definition _add_to_memory (now question response : string) (sources : list string)
  : M unit :=
  mem <- gets memory ;;
  set_memory (mem ++ [ {| timestamp := now; question := question;
                          response := response; sources := sources;
                          exchange_id := len mem + 1 |} ]) ;;;
  mem <- gets memory ;;
  cap <- gets max_memory ;;
  if len mem >? cap then set_memory (slice_from (- cap) mem) else ret tt.

(** [get_memory]: a copy of the list *)
Definition get_memory : M (list Exchange) := gets memory.

(** [get_recent_memory] *)
Definition get_recent_memory (n : Z) : M (list Exchange) :=
  mem <- gets memory ;;
  match mem with
  | [] => ret []
  | _ => ret (slice_from (- n) mem)
  end.

(** [clear_memory] *)
Definition clear_memory : M unit := set_memory [].

(** the test of the loop body of [search_memory] *)
Definition matches (query_lower : string) (ex : Exchange) : bool :=
  str_in query_lower (lower (question ex)) || str_in query_lower (lower (response ex)).

(** the loop of [search_memory]: [results.append(ex)] for each match *)
Fixpoint search_loop (query_lower : string) (mem results : list Exchange)
  : list Exchange :=
  match mem with
  | [] => results
  | ex :: rest =>
      if matches query_lower ex
      then search_loop query_lower rest (results ++ [ex])
      else search_loop query_lower rest results
  end.

(** [search_memory] *)
Definition search_memory (query : string) (limit : Z) : M (list Exchange) :=
  mem <- gets memory ;;
  match mem with
  | [] => ret []
  | _ =>
      let query_lower := lower query in
      let results := search_loop query_lower mem [] in
      ret (slice_from (- limit) results)
  end.

Record MemorySummary : Type := mkMemorySummary {
  total_exchanges : Z;
  memory_empty : bool;
  memory_full : bool;
  latest_exchange_time : option string
}.

(** [get_memory_summary] *)
Definition get_memory_summary : M MemorySummary :=
  mem <- gets memory ;;
  cap <- gets max_memory ;;
  ret {| total_exchanges := len mem;
         memory_empty := len mem =? 0;
         memory_full := len mem >=? cap;
         latest_exchange_time := option_map timestamp (last (map Some mem) None) |}.

(** [set_memory_length] *)
Definition set_memory_length (length : Z) : M unit :=
  set_max_memory (Z.max 1 length) ;;;
  mem <- gets memory ;;
  cap <- gets max_memory ;;
  if len mem >? cap then set_memory (slice_from (- cap) mem) else ret tt.

(* ================================================================== *)
(** ** The RAG chain *)

(** [doc.metadata.get('filename', 'Unknown')] *)
Definition filename_of (doc : Document) : string :=
  match meta_filename doc with Some f => f | None => "Unknown" end.

(** [format_docs] of [_build_chain] *)
Definition format_docs (docs : list Document) : string :=
  join (nl ++ nl)
       (map (fun doc => "[" ++ filename_of doc ++ "]" ++ nl ++ page_content doc) docs).

(** [format_memory] of [_build_chain]; it reads [self.memory] when the chain
    runs, so it takes the memory of that moment. *)
Definition format_memory (mem : list Exchange) : string :=
  match mem with
  | [] => "No previous conversation."
  | _ =>
      let recent := slice_from (- 5) mem in
      join nl (map (fun ex => "Q: " ++ question ex ++ nl ++
                              "A: " ++ str_prefix 100 (response ex) ++ "..." ++ nl)
                   recent)
  end.

(** [get_sources] of [_build_chain] *)
Definition get_sources (docs : list Document) : list string :=
  list_set (map filename_of docs).

(** [self.prompt.format(context=..., chat_history=..., question=...)] *)
Definition prompt (context chat_history question : string) : string :=
  nl ++ "You are a helpful assistant. You are made by Hiamnshu Singh. " ++ nl ++
  "Answer based on the provided context and conversation history." ++ nl ++
  "Also explain as deeply as possible, highlighting the important portions too." ++ nl ++
  "If the content is insufficient, just say you don't know." ++ nl ++
  "But if the users ask for code, make it according to the context but if incomplete , complete yhe code on your own." ++ nl ++
  "If the context contains code, " ++ nl ++
  "reproduce it exactly as it is (keep indentation, spacing, and formatting).  " ++ nl ++
  "Do not explain or modify unless explicitly asked.  " ++ nl ++
  "Wrap all code inside ```language blocks." ++ nl ++
  "Answer based on context and chat history:" ++ nl ++ nl ++
  "CONTEXT: " ++ context ++ nl ++ nl ++
  "CHAT HISTORY: " ++ chat_history ++ nl ++ nl ++
  "QUESTION: " ++ question ++ nl ++ nl ++
  "ANSWER:".

(** the dict a run of the chain yields *)
Record ChainResult : Type := mkChainResult {
  chain_response : string;
  chain_sources : list string
}.

(** [_build_chain] *)
Definition _build_chain : M unit :=
  vs <- gets vectorstore ;;
  match vs with
  | None => raise (AttributeError "'NoneType' object has no attribute 'as_retriever'")
  | Some store => set_rag_chain (Some (mkChain store))
  end.

(** [chain.invoke(question)]: the first [RunnableParallel] retrieves the
    documents (under the keys [context] and [source_docs]: the retriever is
    a function of the store and the question, so one call stands for both)
    and renders the memory, the second prompts the model and collects the
    sources.  An exception of either box ends the run. *)
Definition invoke (chain : Chain) (question : string) : M ChainResult :=
  source_docs <- call (retriever (chain_store chain) question) ;;
  mem <- gets memory ;;
  let context := format_docs source_docs in
  let chat_history := format_memory mem in
  response <- call (llm (prompt context chat_history question)) ;;
  ret {| chain_response := response; chain_sources := get_sources source_docs |}.

(** [self.rag_chain.invoke(question)] *)
Definition rag_chain_invoke (question : string) : M ChainResult :=
  chain <- gets rag_chain ;;
  match chain with
  | None => raise (AttributeError "'NoneType' object has no attribute 'invoke'")
  | Some c => invoke c question
  end.

(* ================================================================== *)
(** ** Queries *)

(** the dict returned by [query] *)
Record QueryResult : Type := mkQueryResult {
  res_response : string;
  res_sources : list string;
  num_sources : Z;
  memory_length : Z;
  success : bool
}.

(** [query] *)
Definition query (now question : string) : M QueryResult :=
  loaded <- gets documents_loaded ;;
  if negb loaded then raise (ValueError "No documents loaded")
  else
    try_except
      (result <- rag_chain_invoke question ;;
       _add_to_memory now question (chain_response result) (chain_sources result) ;;;
       mem <- gets memory ;;
       ret {| res_response := chain_response result;
              res_sources := chain_sources result;
              num_sources := len (chain_sources result);
              memory_length := len mem;
              success := true |})
      (fun e =>
         let error_msg := "Error: " ++ str e in
         _add_to_memory now question error_msg [] ;;;
         mem <- gets memory ;;
         ret {| res_response := error_msg;
                res_sources := [];
                num_sources := 0;
                memory_length := len mem;
                success := false |}).

(** [query_with_memory_context] *)
Definition query_with_memory_context (now question : string) (use_memory : bool)
  : M QueryResult :=
  if negb use_memory then
    old_memory <- gets memory ;;
    set_memory [] ;;;
    result <- query now question ;;
    set_memory old_memory ;;;
    ret result
  else query now question.

(* ================================================================== *)
(** ** Ingestion *)

(** the body of the [try] of the loop of [ingest_documents], for one file *)
Definition load_file (f : UploadFile) : result (list Document) :=
  let docs :=
    if endswith (filename f) ".pdf" then PyPDFLoader_load f
    else if endswith (filename f) ".txt" || endswith (filename f) ".md"
    then TextLoader_load f
    else match read_utf8_ignore f with
         | Ok content => Ok [ {| page_content := content;
                                 meta_source := Some (filename f);
                                 meta_filename := None |} ]
         | Raise e => Raise e
         end in
  match docs with
  | Ok ds => Ok (map (fun doc => {| page_content := page_content doc;
                                    meta_source := meta_source doc;
                                    meta_filename := Some (filename f) |}) ds)
  | Raise e => Raise e
  end.

(** the three accumulators of the loop *)
Record Loaded : Type := mkLoaded {
  documents : list Document;
  processed_files : list string;
  errors : list string
}.

(** the loop of [ingest_documents] *)
Fixpoint load_files (files : list UploadFile) (acc : Loaded) : Loaded :=
  match files with
  | [] => acc
  | f :: rest =>
      match load_file f with
      | Ok docs =>
          load_files rest {| documents := documents acc ++ docs;
                             processed_files := processed_files acc ++ [filename f];
                             errors := errors acc |}
      | Raise e =>
          load_files rest {| documents := documents acc;
                             processed_files := processed_files acc;
                             errors := errors acc ++
                                       ["Error with " ++ filename f ++ ": " ++ str e] |}
      end
  end.

(** the dict returned by [ingest_documents] *)
Record IngestResult : Type := mkIngestResult {
  ing_processed_files : list string;
  total_chunks : Z;
  ing_errors : list string;
  ing_success : bool
}.

(** [ingest_documents] *)
Definition ingest_documents (files : list UploadFile) : M IngestResult :=
  let loaded := load_files files {| documents := []; processed_files := []; errors := [] |} in
  match documents loaded with
  | [] => raise (ValueError "No documents processed")
  | _ =>
      let chunks := split_documents (documents loaded) in
      store <- call (FAISS_from_documents chunks) ;;
      set_vectorstore (Some store) ;;;
      _build_chain ;;;
      set_documents_loaded true ;;;
      ret {| ing_processed_files := processed_files loaded;
             total_chunks := len chunks;
             ing_errors := errors loaded;
             ing_success := true |}
  end.

(** [reset] *)
Definition reset : M unit :=
  set_vectorstore None ;;;
  set_rag_chain None ;;;
  set_documents_loaded false ;;;
  set_memory [].

Record Status : Type := mkStatus {
  st_documents_loaded : bool;
  vectorstore_ready : bool;
  rag_chain_ready : bool;
  memory_status : MemorySummary;
  max_memory_length : Z
}.

(** [get_status] *)
Definition get_status : M Status :=
  loaded <- gets documents_loaded ;;
  vs <- gets vectorstore ;;
  rc <- gets rag_chain ;;
  summary <- get_memory_summary ;;
  cap <- gets max_memory ;;
  ret {| st_documents_loaded := loaded;
         vectorstore_ready := match vs with Some _ => true | None => false end;
         rag_chain_ready := match rc with Some _ => true | None => false end;
         memory_status := summary;
         max_memory_length := cap |}.

(* ================================================================== *)
(** ** The chat endpoint of main.py *)

(** the body of a [ChatResponse] *)
Record ChatResponse : Type := mkChatResponse {
  cr_response : string;
  cr_sources : list string;
  cr_num_sources : Z;
  cr_memory_length : Z
}.

(** What a handler hands to FastAPI: a returned model, sent with status 200,
    or a raised [HTTPException]. *)
Inductive http (A : Type) : Type :=
| Returned (body : A)
| HTTPException (status_code : Z) (detail : string).
Arguments Returned {A} body.
Arguments HTTPException {A} status_code detail.

Definition status_of {A} (r : http A) : Z :=
  match r with
  | Returned _ => 200
  | HTTPException code _ => code
  end.

(** the success class of HTTP statuses, 2xx *)
Definition success_class (code : Z) : bool := (200 <=? code) && (code <? 300).

(** [chat] of main.py on the module's pipeline object [rag] *)
Definition chat (now chat_message : string) (rag : RAGPipeline)
  : http ChatResponse * RAGPipeline :=
  if negb (documents_loaded rag) then
    (HTTPException 400 "No documents loaded. Please upload and process files first.", rag)
  else
    match query now chat_message rag with
    | (Ok result, rag') =>
        if negb (success result)
        then (HTTPException 500 (res_response result), rag')
        else (Returned {| cr_response := res_response result;
                          cr_sources := res_sources result;
                          cr_num_sources := num_sources result;
                          cr_memory_length := memory_length result |}, rag')
    | (Raise e, rag') =>
        (HTTPException 500 ("Error processing chat: " ++ str e), rag')
    end.

End Pipeline.

Arguments Returned {A} body.
Arguments HTTPException {A} status_code detail.
Arguments RAGPipeline B : clear implicits.
Arguments M B A : clear implicits.

(* ================================================================== *)
(** ** Runs of operations *)

Section Runs.
Context {B : Backend}.

(** the state a method call leaves behind *)
Definition exec {A} (m : M B A) (self : RAGPipeline B) : RAGPipeline B := snd (m self).

(** The two operations that shape the memory log. *)
Inductive memory_op : Type :=
| Append (now question response : string) (sources : list string)
| SetCapacity (n : Z).

Definition run_memory_op (op : memory_op) : M B unit :=
  match op with
  | Append now q r s => _add_to_memory now q r s
  | SetCapacity n => set_memory_length n
  end.

(** the exchange an operation appends to the log it finds, if any *)
Definition appended_by (op : memory_op) (self : RAGPipeline B) : list Exchange :=
  match op with
  | Append now q r s =>
      [ {| timestamp := now; question := q; response := r; sources := s;
           exchange_id := len (memory self) + 1 |} ]
  | SetCapacity _ => []
  end.

(** Runs the operations in order; returns the final state and, in the order
    of the calls, every exchange that was appended on the way. *)
Fixpoint run_memory_ops (ops : list memory_op) (self : RAGPipeline B)
  : RAGPipeline B * list Exchange :=
  match ops with
  | [] => (self, [])
  | op :: rest =>
      let (final, appended) := run_memory_ops rest (exec (run_memory_op op) self) in
      (final, (appended_by op self ++ appended)%list)
  end.

(** [count] calls of [_add_to_memory] in a row *)
Fixpoint add_many (count : nat) (now question response : string)
         (sources : list string) (self : RAGPipeline B) : RAGPipeline B :=
  match count with
  | O => self
  | S k => add_many k now question response sources
                    (exec (_add_to_memory now question response sources) self)
  end.

(** the documents the loop of [ingest_documents] collects from a batch *)
Definition batch_documents (files : list UploadFile) : list Document :=
  documents (load_files files {| documents := []; processed_files := []; errors := [] |}).

(** The state-changing operations of the pipeline. *)
Inductive operation : Type :=
| Ingest (files : list UploadFile)
| Query (now question : string)
| QueryWithoutMemory (now question : string)
| ClearMemory
| SetMemoryLength (n : Z)
| Reset.

Definition run_operation (op : operation) (self : RAGPipeline B) : RAGPipeline B :=
  match op with
  | Ingest files => exec (ingest_documents files) self
  | Query now q => exec (query now q) self
  | QueryWithoutMemory now q => exec (query_with_memory_context now q false) self
  | ClearMemory => exec clear_memory self
  | SetMemoryLength n => exec (set_memory_length n) self
  | Reset => exec reset self
  end.

Definition run_operations (ops : list operation) (self : RAGPipeline B) : RAGPipeline B :=
  fold_left (fun s op => run_operation op s) ops self.

(** [documents_loaded] implies a store and a chain. *)
Definition consistent (self : RAGPipeline B) : Prop :=
  documents_loaded self = true ->
  vectorstore self <> None /\ rag_chain self <> None.

End Runs.

(** the last [k] elements of a list *)
Definition last_n {A} (k : nat) (l : list A) : list A :=
  skipn (List.length l - k) l.

(** the log trimmed the way [_add_to_memory] and [set_memory_length] do *)
Definition trimmed (cap : Z) (mem : list Exchange) : list Exchange :=
  if len mem >? cap then slice_from (- cap) mem else mem.

(** The capacity and the number of entries that the specification
    prescribes after a run, from a capacity [cap] and a log of [count]
    entries.  It follows the specification's words: an append adds one entry
    and trims to the capacity at once; a capacity change to [n] makes the
    capacity [max(1, n)] and trims to it at once. *)
Fixpoint retained (ops : list memory_op) (cap count : Z) : Z * Z :=
  match ops with
  | [] => (cap, count)
  | Append _ _ _ _ :: rest => retained rest cap (Z.min cap (count + 1))
  | SetCapacity n :: rest => retained rest (Z.max 1 n) (Z.min (Z.max 1 n) count)
  end.

(* ================================================================== *)
(** ** Two concrete backends, for evaluating the model *)

Definition lower_A_Z_char (c : ascii) : ascii :=
  let n := nat_of_ascii c in
  if (Nat.leb 65 n && Nat.leb n 90)%bool then ascii_of_nat (n + 32) else c.

(** What [s.lower()] is on ASCII text: A-Z are folded, the rest is kept.
    The backends below are for evaluating the model on such text. *)
Fixpoint lower_A_Z (s : string) : string :=
  match s with
  | EmptyString => EmptyString
  | String c t => String (lower_A_Z_char c) (lower_A_Z t)
  end.

(** What [s[:n]] is on ASCII text, where a character is a byte. *)
Definition first_bytes (n : nat) (s : string) : string := substring 0 n s.

(** One of the orders in which a set of strings can be listed: each member
    where it occurs last. *)
Definition first_seen_last (xs : list string) : list string := nodup string_dec xs.

(** A store that is the list of its chunks, a retriever that returns the
    first four, a loader for text only, and a model that always answers. *)
Definition answering_backend : Backend := {|
  lower := lower_A_Z;
  lower_empty := eq_refl;
  str_prefix := first_bytes;
  list_set := first_seen_last;
  list_set_NoDup := NoDup_nodup string_dec;
  list_set_In := nodup_In string_dec;
  VectorStore := list Document;
  PyPDFLoader_load := fun _ => Raise (Exception "invalid pdf header");
  TextLoader_load := fun f =>
    Ok [ {| page_content := file f; meta_source := Some "/tmp/upload";
            meta_filename := None |} ];
  read_utf8_ignore := fun f => Ok (file f);
  split_documents := fun docs => docs;
  FAISS_from_documents := fun chunks =>
    match chunks with
    | [] => Raise (Exception "list index out of range")
    | _ => Ok chunks
    end;
  retriever := fun store _ => Ok (firstn 4 store);
  llm := fun _ => Ok "Paris."
|}.

(** The same, with a model that always fails. *)
Definition failing_backend : Backend := {|
  lower := lower_A_Z;
  lower_empty := eq_refl;
  str_prefix := first_bytes;
  list_set := first_seen_last;
  list_set_NoDup := NoDup_nodup string_dec;
  list_set_In := nodup_In string_dec;
  VectorStore := list Document;
  PyPDFLoader_load := fun _ => Raise (Exception "invalid pdf header");
  TextLoader_load := fun f =>
    Ok [ {| page_content := file f; meta_source := Some "/tmp/upload";
            meta_filename := None |} ];
  read_utf8_ignore := fun f => Ok (file f);
  split_documents := fun docs => docs;
  FAISS_from_documents := fun chunks =>
    match chunks with
    | [] => Raise (Exception "list index out of range")
    | _ => Ok chunks
    end;
  retriever := fun store _ => Ok (firstn 4 store);
  llm := fun _ => Raise (Exception "quota exceeded")
|}.

Definition notes_txt : UploadFile :=
  {| filename := "notes.txt"; file := "Paris is the capital of France." |}.

Definition broken_pdf : UploadFile :=
  {| filename := "scan.pdf"; file := "not a pdf" |}.

(** the pipeline after [ingest_documents([notes_txt])] on a new object *)
Definition loaded_pipeline (B : Backend) : RAGPipeline B :=
  exec (ingest_documents [notes_txt]) new_pipeline.

Definition exchange (i : Z) (q r : string) : Exchange :=
  {| timestamp := "2025-01-01T00:00:00"; question := q; response := r;
     sources := []; exchange_id := i |}.

(** a pipeline whose log holds [mem] *)
Definition pipeline_with (B : Backend) (mem : list Exchange) : RAGPipeline B :=
  exec (set_memory mem) new_pipeline.

Definition start_of_2025 : string := "2025-01-01T00:00:00".

Definition capital_question : string := "What is the capital of France?".

(** the loaded pipeline after one [query] *)
Definition chatted_pipeline (B : Backend) : RAGPipeline B :=
  exec (query start_of_2025 capital_question) (loaded_pipeline B).

(** a log of three exchanges, two of which mention Paris *)
Definition sample_log : list Exchange :=
  [ exchange 1 "Where is Paris?" "In France.";
    exchange 2 "Capital of Italy?" "Rome.";
    exchange 3 "And of France?" "That is PARIS." ].

Definition sample_memory_ops : list memory_op :=
  [ Append start_of_2025 "q1" "r1" [];
    Append start_of_2025 "q2" "r2" ["notes.txt"];
    Append start_of_2025 "q3" "r3" [];
    SetCapacity 2;
    Append start_of_2025 "q4" "r4" [];
    SetCapacity 0;
    SetCapacity 5;
    Append start_of_2025 "q5" "r5" [] ].

Definition sample_operations : list operation :=
  [ Query start_of_2025 capital_question;
    QueryWithoutMemory start_of_2025 capital_question;
    Ingest [broken_pdf];
    Ingest [broken_pdf; notes_txt];
    Query start_of_2025 capital_question;
    SetMemoryLength 1;
    Reset;
    Ingest [notes_txt];
    QueryWithoutMemory start_of_2025 capital_question;
    ClearMemory ].

(** A backend whose splitter yields no chunk for a document without text,
    so that an upload of empty files reaches the index builder with
    nothing. *)
Definition strict_backend : Backend := {|
  lower := lower_A_Z;
  lower_empty := eq_refl;
  str_prefix := first_bytes;
  list_set := first_seen_last;
  list_set_NoDup := NoDup_nodup string_dec;
  list_set_In := nodup_In string_dec;
  VectorStore := list Document;
  PyPDFLoader_load := fun _ => Raise (Exception "invalid pdf header");
  TextLoader_load := fun f =>
    Ok [ {| page_content := file f; meta_source := Some "/tmp/upload";
            meta_filename := None |} ];
  read_utf8_ignore := fun f => Ok (file f);
  split_documents := filter (fun doc => negb (String.eqb (page_content doc) ""));
  FAISS_from_documents := fun chunks =>
    match chunks with
    | [] => Raise (Exception "list index out of range")
    | _ => Ok chunks
    end;
  retriever := fun store _ => Ok (firstn 4 store);
  llm := fun _ => Ok "Paris."
|}.

Definition empty_txt : UploadFile := {| filename := "empty.txt"; file := "" |}.

Definition readme_md : UploadFile :=
  {| filename := "README.md"; file := "DocRAG answers from your documents." |}.

(** the two documents of an upload of [notes_txt] and [readme_md] *)
Definition two_documents : list Document :=
  [ {| page_content := "Paris is the capital of France.";
       meta_source := Some "/tmp/upload"; meta_filename := Some "notes.txt" |};
    {| page_content := "DocRAG answers from your documents.";
       meta_source := Some "/tmp/upload"; meta_filename := Some "README.md" |} ].

(** the pipeline after that upload and one query *)
Definition two_file_pipeline (B : Backend) : RAGPipeline B :=
  exec (query start_of_2025 capital_question)
       (exec (ingest_documents [notes_txt; readme_md]) new_pipeline).

(** a run that ends without documents *)
Definition operations_ending_in_reset : list operation :=
  [ Ingest [notes_txt];
    Query start_of_2025 capital_question;
    Reset;
    QueryWithoutMemory start_of_2025 capital_question ].

(* ================================================================== *)
(** ** Other handlers: [upload_files] of main.py, [chat_without_memory] and
    [set_memory_length] of files/main.py *)

(** [str(n)] of an [int], as an f-string renders it *)
Definition str_int (n : Z) : string := NilZero.string_of_int (Z.to_int n).

Module Api.
Section Handlers.
Context {B : Backend}.

(** the body of an [UploadResponse] *)
Record UploadResponse : Type := mkUploadResponse {
  message : string;
  up_processed_files : list string;
  up_total_chunks : Z;
  up_errors : list string
}.

(** [upload_files]: the emptiness test stands before the [try], the
    [except Exception] wraps whatever [ingest_documents] raises. *)
Definition upload_files (files : list UploadFile) (rag : RAGPipeline B)
  : http UploadResponse * RAGPipeline B :=
  match files with
  | [] => (HTTPException 400 "No files uploaded", rag)
  | _ =>
      match ingest_documents files rag with
      | (Ok result, rag') =>
          (Returned {| message := "Successfully processed " ++
                                  str_int (len (ing_processed_files result)) ++
                                  " files with " ++ str_int (total_chunks result) ++
                                  " chunks";
                       up_processed_files := ing_processed_files result;
                       up_total_chunks := total_chunks result;
                       up_errors := ing_errors result |}, rag')
      | (Raise e, rag') =>
          (HTTPException 500 ("Error processing files: " ++ str e), rag')
      end
  end.

(** [chat_without_memory] *)
Definition chat_without_memory (now chat_message : string) (rag : RAGPipeline B)
  : http ChatResponse * RAGPipeline B :=
  if negb (documents_loaded rag) then
    (HTTPException 400 "No documents loaded. Please upload and process files first.", rag)
  else
    match query_with_memory_context now chat_message false rag with
    | (Ok result, rag') =>
        if negb (success result)
        then (HTTPException 500 (res_response result), rag')
        else (Returned {| cr_response := res_response result;
                          cr_sources := res_sources result;
                          cr_num_sources := num_sources result;
                          cr_memory_length := memory_length result |}, rag')
    | (Raise e, rag') =>
        (HTTPException 500 ("Error processing chat: " ++ str e), rag')
    end.

(** [set_memory_length] of the API; the body returned is the text under the
    key [message]. *)
Definition set_memory_length (max_length : Z) (rag : RAGPipeline B)
  : http string * RAGPipeline B :=
  if max_length <? 1 then
    (HTTPException 400 "Memory length must be at least 1", rag)
  else
    match set_memory_length max_length rag with
    | (Ok _, rag') => (Returned ("Memory length set to " ++ str_int max_length), rag')
    | (Raise e, rag') =>
        (HTTPException 500 ("Error setting memory length: " ++ str e), rag')
    end.

End Handlers.
End Api.

(* ================================================================== *)
(** ** Predicates used in the statements *)

(** [needle] occurs in [hay] as a contiguous piece. *)
Definition occurs_in (needle hay : string) : Prop :=
  exists before after, hay = before ++ needle ++ after.

Definition is_some {A} (o : option A) : bool :=
  match o with Some _ => true | None => false end.

(** The shape of the pipelines that the operations produce from a new one:
    a capacity of at least one, a log within it, no log without documents,
    and a store and a chain exactly when documents are loaded. *)
Definition well_formed {B : Backend} (self : RAGPipeline B) : Prop :=
  1 <= max_memory self /\
  len (memory self) <= max_memory self /\
  (documents_loaded self = false -> memory self = []) /\
  documents_loaded self = is_some (vectorstore self) /\
  documents_loaded self = is_some (rag_chain self).

(** whether the load of a file succeeds *)
Definition loads {B : Backend} (f : UploadFile) : bool :=
  match load_file f with Ok _ => true | Raise _ => false end.

(** the exchanges [count] calls of [_add_to_memory] with the same arguments
    create on a log of [k] entries that stays below its capacity *)
Definition numbered (k : Z) (count : nat) (now question response : string)
           (sources : list string) : list Exchange :=
  map (fun i => {| timestamp := now; question := question; response := response;
                   sources := sources; exchange_id := k + Z.of_nat i |})
      (seq 1 count).

(* ================================================================== *)
(** * Properties *)

(** ** Slices *)

Lemma len_nonneg {A} (l : list A) : 0 <= len l.
Proof. unfold len. lia. Qed.

Lemma len_app {A} (l1 l2 : list A) : len (l1 ++ l2) = len l1 + len l2.
Proof. unfold len. rewrite length_app. lia. Qed.

(** [l[s:]] for [s >= 0] drops the first [s] elements. *)
Lemma slice_from_nonneg {A} (s : Z) (l : list A) :
  0 <= s -> slice_from s l = skipn (Z.to_nat s) l.
Proof.
  intros Hs. unfold slice_from, len.
  destruct (Z.ltb_spec s 0) as [Hlt | _]; [lia |].
  destruct (Z.le_gt_cases s (Z.of_nat (List.length l))) as [Hle | Hgt].
  - rewrite Z.min_l by lia. reflexivity.
  - rewrite Z.min_r by lia. rewrite Nat2Z.id.
    rewrite !skipn_all2; [reflexivity | lia | lia].
Qed.

(** [l[-n:]] for [n > 0] keeps the last [n] elements. *)
Lemma slice_from_neg {A} (n : Z) (l : list A) :
  0 < n -> slice_from (- n) l = last_n (Z.to_nat n) l.
Proof.
  intros Hn. unfold slice_from, last_n, len.
  destruct (Z.ltb_spec (- n) 0) as [_ | Hge]; [| lia].
  f_equal. lia.
Qed.

Lemma slice_from_zero {A} (l : list A) : slice_from (- 0) l = l.
Proof. rewrite slice_from_nonneg by lia. reflexivity. Qed.

Lemma last_n_length {A} (k : nat) (l : list A) :
  List.length (last_n k l) = Nat.min k (List.length l).
Proof. unfold last_n. rewrite length_skipn. lia. Qed.

Lemma last_n_suffix {A} (k : nat) (l : list A) :
  exists pre, l = (pre ++ last_n k l)%list.
Proof.
  exists (firstn (List.length l - k) l). unfold last_n.
  symmetry. apply firstn_skipn.
Qed.

(** A suffix of a list is its last elements. *)
Lemma suffix_last_n {A} (pre m : list A) :
  last_n (List.length m) (pre ++ m) = m.
Proof.
  unfold last_n. rewrite length_app.
  replace (List.length pre + List.length m - List.length m)%nat
    with (List.length pre) by lia.
  rewrite skipn_app, skipn_all, Nat.sub_diag. reflexivity.
Qed.

(* ================================================================== *)
(** ** The memory log *)

Section MemoryProperties.
Context {B : Backend}.
Implicit Types (self : RAGPipeline B) (mem : list Exchange).

Lemma add_to_memory_exec self now q r s :
  exec (_add_to_memory now q r s) self =
  {| vectorstore := vectorstore self; rag_chain := rag_chain self;
     documents_loaded := documents_loaded self;
     memory := trimmed (max_memory self)
                 (memory self ++
                  [ {| timestamp := now; question := q; response := r; sources := s;
                       exchange_id := len (memory self) + 1 |} ]);
     max_memory := max_memory self |}.
Proof.
  unfold exec, _add_to_memory, trimmed, bind, gets, set_memory, ret. simpl.
  destruct (len _ >? max_memory self); reflexivity.
Qed.

Lemma set_memory_length_exec self n :
  exec (set_memory_length n) self =
  {| vectorstore := vectorstore self; rag_chain := rag_chain self;
     documents_loaded := documents_loaded self;
     memory := trimmed (Z.max 1 n) (memory self);
     max_memory := Z.max 1 n |}.
Proof.
  unfold exec, set_memory_length, trimmed, bind, gets, set_memory, set_max_memory, ret.
  simpl. destruct (len _ >? Z.max 1 n); reflexivity.
Qed.

(** With a capacity of at least one, trimming keeps the last [cap] entries. *)
Lemma trimmed_last_n cap mem :
  1 <= cap -> trimmed cap mem = last_n (Z.to_nat cap) mem.
Proof.
  intros Hcap. unfold trimmed.
  destruct (Z.gtb_spec (len mem) cap) as [Hgt | Hle].
  - apply slice_from_neg. lia.
  - unfold last_n, len in *.
    replace (List.length mem - Z.to_nat cap)%nat with O by lia. reflexivity.
Qed.

Lemma trimmed_len cap mem : 1 <= cap -> len (trimmed cap mem) <= cap.
Proof.
  intros Hcap. rewrite trimmed_last_n by assumption.
  unfold len. rewrite last_n_length. lia.
Qed.

Lemma trimmed_suffix cap mem :
  1 <= cap -> exists pre, mem = (pre ++ trimmed cap mem)%list.
Proof.
  intros Hcap. rewrite trimmed_last_n by assumption. apply last_n_suffix.
Qed.

(** Each of the two operations leaves a capacity of at least one and a log
    within it. *)
Lemma run_memory_op_bound op self :
  1 <= max_memory self ->
  1 <= max_memory (exec (run_memory_op op) self) /\
  len (memory (exec (run_memory_op op) self)) <= max_memory (exec (run_memory_op op) self).
Proof.
  intros Hcap. destruct op as [now q r s | n]; simpl run_memory_op.
  - rewrite add_to_memory_exec. simpl. split; [assumption |].
    apply trimmed_len. assumption.
  - rewrite set_memory_length_exec. simpl. split; [lia |].
    apply trimmed_len. lia.
Qed.

(** Each of the two operations keeps a suffix of the log extended by what it
    appended. *)
Lemma run_memory_op_suffix op self :
  1 <= max_memory self ->
  exists pre,
    (memory self ++ appended_by op self)%list =
    (pre ++ memory (exec (run_memory_op op) self))%list.
Proof.
  intros Hcap. destruct op as [now q r s | n]; simpl run_memory_op; simpl appended_by.
  - rewrite add_to_memory_exec. simpl. apply trimmed_suffix. assumption.
  - rewrite set_memory_length_exec. simpl. rewrite app_nil_r.
    apply trimmed_suffix. lia.
Qed.

Lemma run_memory_ops_invariant ops : forall self,
  1 <= max_memory self ->
  len (memory self) <= max_memory self ->
  len (memory (fst (run_memory_ops ops self))) <=
    max_memory (fst (run_memory_ops ops self)) /\
  exists pre,
    (memory self ++ snd (run_memory_ops ops self))%list =
    (pre ++ memory (fst (run_memory_ops ops self)))%list.
Proof.
  induction ops as [| op rest IH]; intros self Hcap Hlen.
  - simpl. split; [assumption |]. exists []. rewrite app_nil_r. reflexivity.
  - simpl.
    destruct (run_memory_op_bound op self Hcap) as [Hcap' Hlen'].
    destruct (run_memory_op_suffix op self Hcap) as [pre1 Hpre1].
    specialize (IH _ Hcap' Hlen').
    destruct (run_memory_ops rest (exec (run_memory_op op) self)) as [final appended].
    simpl in *. destruct IH as [Hbound [pre2 Hpre2]].
    split; [assumption |].
    exists (pre1 ++ pre2)%list.
    rewrite app_assoc, Hpre1, <- !app_assoc, Hpre2. reflexivity.
Qed.

(** Each of the two operations leaves the capacity and the number of
    entries the specification prescribes. *)
Lemma run_memory_op_counts op self :
  1 <= max_memory self ->
  (max_memory (exec (run_memory_op op) self),
   len (memory (exec (run_memory_op op) self))) =
  retained [op] (max_memory self) (len (memory self)).
Proof.
  intros Hcap. destruct op as [now q r s | n]; simpl run_memory_op; simpl retained.
  - rewrite add_to_memory_exec. simpl.
    rewrite trimmed_last_n by assumption.
    f_equal. unfold len. rewrite last_n_length, length_app. simpl. lia.
  - rewrite set_memory_length_exec. simpl.
    rewrite trimmed_last_n by lia.
    f_equal. unfold len. rewrite last_n_length. lia.
Qed.

Lemma run_memory_ops_counts ops : forall self,
  1 <= max_memory self ->
  (max_memory (fst (run_memory_ops ops self)),
   len (memory (fst (run_memory_ops ops self)))) =
  retained ops (max_memory self) (len (memory self)).
Proof.
  induction ops as [| op rest IH]; intros self Hcap.
  - reflexivity.
  - destruct (run_memory_op_bound op self Hcap) as [Hcap' _].
    specialize (IH _ Hcap').
    pose proof (run_memory_op_counts op self Hcap) as Hstep.
    cbn [run_memory_ops].
    destruct (run_memory_ops rest (exec (run_memory_op op) self)) as [final appended].
    cbn [fst] in *. rewrite IH.
    destruct op as [now q r s | n]; cbn [retained run_memory_op] in *;
      injection Hstep as Hc Hl; rewrite Hc, Hl; reflexivity.
Qed.

(** C3. Memory bound invariant: from a pipeline whose capacity is at least
    one and whose log is within it (a new pipeline is one), after any
    sequence of appends and capacity changes the log is no longer than
    [max_memory]; it consists of the last entries, in order, of the old
    log followed by everything appended since; and the capacity and the
    number of entries kept are those of trimming at once after every
    append and after every capacity change: an append leaves
    [min(max_memory, length + 1)] entries, a change to [n] leaves a
    capacity of [max(1, n)] and [min(max(1, n), length)] entries. *)
Theorem memory_bound_invariant ops self :
  1 <= max_memory self ->
  len (memory self) <= max_memory self ->
  let final := fst (run_memory_ops ops self) in
  let appended := snd (run_memory_ops ops self) in
  len (memory final) <= max_memory final /\
  memory final = last_n (List.length (memory final)) (memory self ++ appended) /\
  max_memory final = fst (retained ops (max_memory self) (len (memory self))) /\
  len (memory final) = snd (retained ops (max_memory self) (len (memory self))).
Proof.
  intros Hcap Hlen final appended.
  destruct (run_memory_ops_invariant ops self Hcap Hlen) as [Hbound [pre Hpre]].
  pose proof (run_memory_ops_counts ops self Hcap) as Hcounts.
  fold final appended in Hbound, Hpre. fold final in Hcounts.
  split; [exact Hbound |]. split.
  - rewrite Hpre. symmetry. apply suffix_last_n.
  - rewrite <- Hcounts. split; reflexivity.
Qed.

(** The same from a new pipeline, where nothing has to be assumed. *)
Corollary memory_bound_from_new ops :
  let final := fst (run_memory_ops ops (@new_pipeline B)) in
  let appended := snd (run_memory_ops ops (@new_pipeline B)) in
  len (memory final) <= max_memory final /\
  memory final = last_n (List.length (memory final)) appended.
Proof.
  intros final appended.
  destruct (run_memory_ops_invariant ops (@new_pipeline B)) as [Hbound [pre Hpre]];
    [unfold new_pipeline; simpl; lia | unfold new_pipeline, len; simpl; lia |].
  fold final appended in Hbound, Hpre. simpl in Hpre.
  split; [exact Hbound |].
  rewrite Hpre. symmetry. apply suffix_last_n.
Qed.

(** An append on a log of [k] entries under capacity [cap >= 1] leaves the
    last [min cap (k + 1)] entries: the trim is immediate. *)
Lemma add_to_memory_trims self now q r s :
  1 <= max_memory self ->
  memory (exec (_add_to_memory now q r s) self) =
  last_n (Z.to_nat (max_memory self))
         (memory self ++ appended_by (Append now q r s) self).
Proof.
  intros Hcap. rewrite add_to_memory_exec. simpl.
  apply trimmed_last_n. assumption.
Qed.

(** A capacity change trims at once to the last [max 1 n] entries. *)
Lemma set_memory_length_trims self n :
  memory (exec (set_memory_length n) self) =
  last_n (Z.to_nat (Z.max 1 n)) (memory self) /\
  max_memory (exec (set_memory_length n) self) = Z.max 1 n.
Proof.
  rewrite set_memory_length_exec. simpl. split; [| reflexivity].
  apply trimmed_last_n. lia.
Qed.

(** *** Exchange ids *)

(** On a full log the next id is [max_memory + 1], and the log stays full:
    the id after that is the same again. *)
Lemma add_to_memory_full self now q r s :
  1 <= max_memory self ->
  len (memory self) = max_memory self ->
  let self' := exec (_add_to_memory now q r s) self in
  len (memory self') = max_memory self' /\
  option_map exchange_id (last (map Some (memory self')) None) =
    Some (max_memory self + 1).
Proof.
  intros Hcap Hfull self'. subst self'.
  rewrite add_to_memory_exec. simpl.
  set (ex := {| timestamp := now; question := q; response := r; sources := s;
                exchange_id := len (memory self) + 1 |}).
  rewrite trimmed_last_n by assumption.
  split.
  - unfold len in *. rewrite last_n_length, length_app. simpl. lia.
  - unfold last_n. rewrite length_app. simpl.
    rewrite skipn_app.
    replace (List.length (memory self) + 1 - Z.to_nat (max_memory self)
             - List.length (memory self))%nat with O by (unfold len in *; lia).
    simpl. rewrite map_app. simpl (map Some [ex]). rewrite last_last.
    simpl. rewrite Hfull. reflexivity.
Qed.

(** C1. Appending 25 exchanges to a new pipeline ([max_memory = 20]) leaves
    20 entries whose ids are 6..20 followed by 21 five times: the id is
    the length of the log plus one, and the length stops growing once the
    log is trimmed. *)
Theorem exchange_ids_after_25_appends now q r s :
  map exchange_id (memory (add_many 25 now q r s (@new_pipeline B))) =
  [6; 7; 8; 9; 10; 11; 12; 13; 14; 15; 16; 17; 18; 19; 20; 21; 21; 21; 21; 21].
Proof. reflexivity. Qed.

(** *** get_recent_memory *)

(** For [n > 0], the last [min n len] entries in their order. *)
Lemma get_recent_memory_positive self n :
  0 < n ->
  get_recent_memory n self = (Ok (last_n (Z.to_nat n) (memory self)), self).
Proof.
  intros Hn. unfold get_recent_memory, bind, gets, ret. simpl.
  destruct (memory self) as [| ex mem] eqn:Hmem.
  - unfold last_n. rewrite skipn_nil. reflexivity.
  - rewrite slice_from_neg by assumption. reflexivity.
Qed.

(** C5. For [n <= 0], [get_recent_memory n] returns the log without its
    first [- n] entries; for [n = 0] that is the whole log, not the empty
    sequence. *)
Theorem get_recent_memory_nonpositive self n :
  n <= 0 ->
  get_recent_memory n self = (Ok (skipn (Z.to_nat (- n)) (memory self)), self).
Proof.
  intros Hn. unfold get_recent_memory, bind, gets, ret. simpl.
  destruct (memory self) as [| ex mem] eqn:Hmem.
  - rewrite skipn_nil. reflexivity.
  - rewrite slice_from_nonneg by lia. reflexivity.
Qed.

(** *** search_memory *)

Lemma search_loop_filter query_lower mem : forall results,
  search_loop query_lower mem results =
  (results ++ filter (matches query_lower) mem)%list.
Proof.
  induction mem as [| ex rest IH]; intros results; simpl.
  - rewrite app_nil_r. reflexivity.
  - destruct (matches query_lower ex).
    + rewrite IH, <- app_assoc. reflexivity.
    + apply IH.
Qed.

(** For [limit > 0]: the matching entries are filtered out of the log in
    its order, and the last [limit] of them are returned. *)
Lemma search_memory_positive self q limit :
  0 < limit ->
  search_memory q limit self =
  (Ok (last_n (Z.to_nat limit) (filter (matches (lower q)) (memory self))), self).
Proof.
  intros Hl. unfold search_memory, bind, gets, ret. simpl.
  destruct (memory self) as [| ex mem] eqn:Hmem.
  - reflexivity.
  - rewrite search_loop_filter, slice_from_neg by assumption. reflexivity.
Qed.

(** C8. For [limit <= 0], [search_memory q limit] returns the matching
    entries without the first [- limit] of them; for [limit = 0] that is
    every match, not at most zero of them. *)
Theorem search_memory_nonpositive self q limit :
  limit <= 0 ->
  search_memory q limit self =
  (Ok (skipn (Z.to_nat (- limit)) (filter (matches (lower q)) (memory self))), self).
Proof.
  intros Hl. unfold search_memory, bind, gets, ret. simpl.
  destruct (memory self) as [| ex mem] eqn:Hmem.
  - rewrite skipn_nil. reflexivity.
  - rewrite search_loop_filter, slice_from_nonneg by lia. reflexivity.
Qed.

End MemoryProperties.

(* ================================================================== *)
(** ** Queries *)

Section QueryProperties.
Context {B : Backend}.
Implicit Types (self rag : RAGPipeline B).

Lemma add_to_memory_ok self now q r s :
  _add_to_memory now q r s self = (Ok tt, exec (_add_to_memory now q r s) self).
Proof.
  unfold exec, _add_to_memory, bind, gets, set_memory, ret. simpl.
  destruct (len _ >? max_memory self); reflexivity.
Qed.

(** Running the chain reads the pipeline and leaves it as it was. *)
Lemma rag_chain_invoke_pure q self :
  rag_chain_invoke q self = (fst (rag_chain_invoke q self), self).
Proof.
  unfold rag_chain_invoke, invoke, bind, gets, call, ret, raise. simpl.
  destruct (rag_chain self) as [c |]; simpl; [| reflexivity].
  destruct (retriever (chain_store c) q) as [docs | e]; simpl; [| reflexivity].
  destruct (llm _); reflexivity.
Qed.

(** [query] on a loaded pipeline, by the outcome of the chain. *)
Lemma query_loaded now q self :
  documents_loaded self = true ->
  query now q self =
  match fst (rag_chain_invoke q self) with
  | Ok result =>
      let self' := exec (_add_to_memory now q (chain_response result)
                                        (chain_sources result)) self in
      (Ok {| res_response := chain_response result;
             res_sources := chain_sources result;
             num_sources := len (chain_sources result);
             memory_length := len (memory self');
             success := true |}, self')
  | Raise e =>
      let self' := exec (_add_to_memory now q ("Error: " ++ str e) []) self in
      (Ok {| res_response := "Error: " ++ str e;
             res_sources := [];
             num_sources := 0;
             memory_length := len (memory self');
             success := false |}, self')
  end.
Proof.
  intros Hloaded. unfold query, bind at 1, gets at 1. rewrite Hloaded. simpl.
  unfold try_except, bind at 1. rewrite rag_chain_invoke_pure.
  destruct (fst (rag_chain_invoke q self)) as [result | e]; simpl;
    unfold bind at 1; rewrite add_to_memory_ok; reflexivity.
Qed.

Lemma query_raises_unloaded now q self :
  documents_loaded self = false ->
  query now q self = (Raise (ValueError "No documents loaded"), self).
Proof.
  intros Hnot. unfold query, bind, gets, raise. rewrite Hnot. reflexivity.
Qed.

(** C7. On a pipeline whose [documents_loaded] is false, [query] raises
    [ValueError("No documents loaded")] and leaves the pipeline, its memory
    log included, as it was. *)
Theorem query_not_loaded now q self :
  documents_loaded self = false ->
  query now q self = (Raise (ValueError "No documents loaded"), self) /\
  memory (exec (query now q) self) = memory self.
Proof.
  intros Hnot. unfold exec. rewrite (query_raises_unloaded now q self Hnot).
  split; reflexivity.
Qed.

(** C6. On a loaded pipeline, when the run of the chain raises [e], [query]
    returns normally: the log is the old log with one exchange appended
    (response ["Error: " ++ str e], no sources) and trimmed, and the record
    returned has that response, no sources, [num_sources = 0],
    [success = false] and the length of the log after the append. *)
Theorem query_generation_failure now q self e :
  documents_loaded self = true ->
  fst (rag_chain_invoke q self) = Raise e ->
  let error_msg := "Error: " ++ str e in
  let ex := {| timestamp := now; question := q; response := error_msg;
               sources := []; exchange_id := len (memory self) + 1 |} in
  let self' := exec (_add_to_memory now q error_msg []) self in
  memory self' = trimmed (max_memory self) (memory self ++ [ex]) /\
  query now q self =
    (Ok {| res_response := error_msg; res_sources := []; num_sources := 0;
           memory_length := len (memory self'); success := false |}, self').
Proof.
  intros Hloaded Hfail error_msg ex self'. split.
  - subst self'. rewrite add_to_memory_exec. reflexivity.
  - rewrite (query_loaded now q self Hloaded), Hfail. reflexivity.
Qed.

(** A query on a loaded pipeline returns a record and changes the log
    only. *)
Lemma query_loaded_frame now q self :
  documents_loaded self = true ->
  exists result mem,
    query now q self =
    (Ok result, {| vectorstore := vectorstore self; rag_chain := rag_chain self;
                   documents_loaded := documents_loaded self;
                   memory := mem; max_memory := max_memory self |}).
Proof.
  intros Hloaded. rewrite (query_loaded now q self Hloaded).
  destruct (fst (rag_chain_invoke q self)) as [result | e]; simpl;
    rewrite add_to_memory_exec; eauto.
Qed.

(** the save, clear, query, restore sequence on a loaded pipeline *)
Lemma query_without_memory_loaded now q self :
  documents_loaded self = true ->
  query_with_memory_context now q false self =
    (fst (query now q (exec clear_memory self)), self).
Proof.
  intros Hloaded.
  destruct self as [vs rc loaded mem cap]. simpl in Hloaded. subst loaded.
  destruct (query_loaded_frame now q
              {| vectorstore := vs; rag_chain := rc; documents_loaded := true;
                 memory := []; max_memory := cap |} eq_refl)
    as [result [mem' Hq]].
  unfold query_with_memory_context, exec, clear_memory, bind, gets, ret, set_memory.
  simpl in *. rewrite Hq. reflexivity.
Qed.

(** the same sequence when no documents are loaded: [query] raises before
    the saved log is put back *)
Lemma query_without_memory_unloaded now q self :
  documents_loaded self = false ->
  query_with_memory_context now q false self =
    (Raise (ValueError "No documents loaded"), exec clear_memory self).
Proof.
  intros Hnot.
  destruct self as [vs rc loaded mem cap]. simpl in Hnot. subst loaded.
  unfold query_with_memory_context, exec, clear_memory, bind, gets, ret, set_memory.
  cbn [negb vectorstore rag_chain documents_loaded memory max_memory snd].
  rewrite query_raises_unloaded by reflexivity. reflexivity.
Qed.

(** C2. On a loaded pipeline, [query_with_memory_context] with
    [use_memory = False] returns what [query] returns on the pipeline with
    an empty log, and leaves the pipeline exactly as it was before the call:
    the exchange is not recorded in the log. *)
Theorem query_without_memory_restores now q self :
  documents_loaded self = true ->
  query_with_memory_context now q false self =
    (fst (query now q (exec clear_memory self)), self) /\
  memory (exec clear_memory self) = [] /\
  memory (exec (query_with_memory_context now q false) self) = memory self.
Proof.
  intros Hloaded.
  pose proof (query_without_memory_loaded now q self Hloaded) as Hcall.
  split; [exact Hcall |]. split; [reflexivity |].
  unfold exec at 1. rewrite Hcall. reflexivity.
Qed.

(** What the model is asked in that call: the prompt carries the rendering
    of an empty history; the sources are the file names of the retrieved
    documents as [list(set(...))] lists them. *)
Lemma query_without_memory_prompt now q self c docs answer :
  documents_loaded self = true ->
  rag_chain self = Some c ->
  retriever (chain_store c) q = Ok docs ->
  llm (prompt (format_docs docs) "No previous conversation." q) = Ok answer ->
  exists n,
    fst (query_with_memory_context now q false self) =
    Ok {| res_response := answer; res_sources := get_sources docs;
          num_sources := len (get_sources docs); memory_length := n;
          success := true |}.
Proof.
  intros Hloaded Hc Hdocs Hanswer.
  rewrite (query_without_memory_loaded now q self Hloaded). simpl fst.
  rewrite query_loaded by exact Hloaded.
  unfold rag_chain_invoke, invoke, bind, gets, call, ret.
  simpl. rewrite Hc. simpl. rewrite Hdocs. simpl. rewrite Hanswer. simpl.
  eauto.
Qed.

(** C4. When documents are loaded and [query] returns a record with
    [success = false], the chat handler raises [HTTPException] with status
    500 and the record's response as detail: a server error, not a
    success-class response. *)
Theorem chat_failed_answer_is_500 now chat_message rag result rag' :
  documents_loaded rag = true ->
  query now chat_message rag = (Ok result, rag') ->
  success result = false ->
  chat now chat_message rag = (HTTPException 500 (res_response result), rag') /\
  success_class (status_of (fst (chat now chat_message rag))) = false.
Proof.
  intros Hloaded Hquery Hfailed.
  assert (Hchat : chat now chat_message rag =
                  (HTTPException 500 (res_response result), rag')).
  { unfold chat. rewrite Hloaded, Hquery, Hfailed. reflexivity. }
  split; [exact Hchat |]. rewrite Hchat. reflexivity.
Qed.

End QueryProperties.

(* ================================================================== *)
(** ** Ingestion and consistency *)

Section IngestProperties.
Context {B : Backend}.
Implicit Types (self : RAGPipeline B).

(** A file whose load raises adds nothing to the documents. *)
Lemma load_files_all_fail files : forall acc,
  Forall (fun f => exists e, load_file f = Raise e) files ->
  documents (load_files files acc) = documents acc.
Proof.
  induction files as [| f rest IH]; intros acc Hall; simpl.
  - reflexivity.
  - inversion Hall as [| f' rest' [e He] Hrest]; subst.
    rewrite He, IH by assumption. reflexivity.
Qed.

(** A batch in which every file fails to load yields no document. *)
Lemma all_fail_no_documents files :
  Forall (fun f => exists e, load_file f = Raise e) files ->
  batch_documents files = [].
Proof.
  intros Hall. unfold batch_documents.
  rewrite load_files_all_fail by assumption. reflexivity.
Qed.

(** C9. When the loop collects no document from the batch,
    [ingest_documents] raises [ValueError("No documents processed")] and the
    pipeline is left as it was: [documents_loaded], the store, the chain and
    the memory log keep their values. *)
Theorem ingest_no_documents files self :
  batch_documents files = [] ->
  ingest_documents files self = (Raise (ValueError "No documents processed"), self).
Proof.
  unfold batch_documents, ingest_documents. intros Hnone.
  rewrite Hnone. reflexivity.
Qed.

(** The three outcomes of [ingest_documents]: nothing decoded, the index
    could not be built, or a new store and chain with [documents_loaded]
    set. *)
Lemma ingest_documents_cases files self :
  exec (ingest_documents files) self = self \/
  exists store,
    exec (ingest_documents files) self =
    {| vectorstore := Some store; rag_chain := Some (mkChain store);
       documents_loaded := true;
       memory := memory self; max_memory := max_memory self |}.
Proof.
  unfold exec, ingest_documents.
  destruct (documents _) as [| doc docs]; [left; reflexivity |].
  unfold bind at 1, call.
  destruct (FAISS_from_documents _) as [store | e]; [| left; reflexivity].
  right. exists store. reflexivity.
Qed.

(** Whatever a query does, it touches the log only. *)
Lemma query_frame now q self :
  vectorstore (exec (query now q) self) = vectorstore self /\
  rag_chain (exec (query now q) self) = rag_chain self /\
  documents_loaded (exec (query now q) self) = documents_loaded self.
Proof.
  unfold exec. destruct (documents_loaded self) eqn:Hloaded.
  - destruct (query_loaded_frame now q self Hloaded) as [result [mem Hq]].
    rewrite Hq. simpl. rewrite Hloaded. auto.
  - rewrite (query_raises_unloaded now q self Hloaded). simpl. auto.
Qed.

Lemma query_without_memory_frame now q self :
  let self' := exec (query_with_memory_context now q false) self in
  vectorstore self' = vectorstore self /\
  rag_chain self' = rag_chain self /\
  documents_loaded self' = documents_loaded self.
Proof.
  unfold exec. destruct (documents_loaded self) eqn:Hloaded.
  - rewrite (query_without_memory_loaded now q self Hloaded). simpl. auto.
  - rewrite (query_without_memory_unloaded now q self Hloaded). simpl. auto.
Qed.

Lemma run_operation_consistent op self :
  consistent self -> consistent (run_operation op self).
Proof.
  unfold consistent. intros Hself.
  destruct op as [files | now q | now q | | n |]; simpl run_operation.
  - destruct (ingest_documents_cases files self) as [Hsame | [store Hnew]].
    + rewrite Hsame. exact Hself.
    + rewrite Hnew. simpl. intros _. split; discriminate.
  - destruct (query_frame now q self) as [Hv [Hc Hl]].
    rewrite Hv, Hc, Hl. exact Hself.
  - destruct (query_without_memory_frame now q self) as [Hv [Hc Hl]].
    rewrite Hv, Hc, Hl. exact Hself.
  - exact Hself.
  - rewrite set_memory_length_exec. exact Hself.
  - simpl. discriminate.
Qed.

Lemma run_operations_consistent ops : forall self,
  consistent self -> consistent (run_operations ops self).
Proof.
  unfold run_operations.
  induction ops as [| op rest IH]; intros self Hself; simpl.
  - exact Hself.
  - apply IH. apply run_operation_consistent. exact Hself.
Qed.

Lemma new_pipeline_consistent : consistent (@new_pipeline B).
Proof. unfold consistent. simpl. discriminate. Qed.

(** C10. Every operation keeps the pipeline consistent, so does every
    sequence of them: from a pipeline where [documents_loaded] implies a
    store and a chain, each of ingest, query, query without memory, clear,
    set capacity and reset leads to such a pipeline again. *)
Theorem operations_keep_consistent ops self :
  consistent self -> consistent (run_operations ops self).
Proof. apply run_operations_consistent. Qed.

(** A new pipeline is consistent, so [documents_loaded = true] with no
    store is not reachable from it. *)
Corollary loaded_without_index_unreachable ops :
  let self := run_operations ops (@new_pipeline B) in
  ~ (documents_loaded self = true /\ vectorstore self = None).
Proof.
  intros self [Hloaded Hnone].
  destruct (run_operations_consistent ops new_pipeline_consistent Hloaded) as [Hv _].
  contradiction.
Qed.

End IngestProperties.

(* ================================================================== *)
(** ** The theorems at concrete inputs *)

(** Scenario: [set_memory_length(3)] on a log of ten entries keeps the
    three most recent. *)
Example set_capacity_3_of_10 :
  map exchange_id
      (memory (exec (set_memory_length 3)
                    (add_many 10 start_of_2025 "q" "r" [] (@new_pipeline answering_backend))))
  = [8; 9; 10].
Proof. reflexivity. Qed.

Lemma memory_bound_invariant_witness :
  1 <= max_memory (@new_pipeline answering_backend) /\
  len (memory (@new_pipeline answering_backend)) <= max_memory (@new_pipeline answering_backend) /\
  len (memory (fst (run_memory_ops sample_memory_ops (@new_pipeline answering_backend)))) <=
    max_memory (fst (run_memory_ops sample_memory_ops (@new_pipeline answering_backend))) /\
  memory (fst (run_memory_ops sample_memory_ops (@new_pipeline answering_backend))) =
    last_n (List.length (memory (fst (run_memory_ops sample_memory_ops
                                                     (@new_pipeline answering_backend)))))
           (memory (@new_pipeline answering_backend) ++
            snd (run_memory_ops sample_memory_ops (@new_pipeline answering_backend))) /\
  max_memory (fst (run_memory_ops sample_memory_ops (@new_pipeline answering_backend))) = 5 /\
  len (memory (fst (run_memory_ops sample_memory_ops (@new_pipeline answering_backend)))) = 2.
Proof.
  assert (Hcap : 1 <= max_memory (@new_pipeline answering_backend))
    by (unfold new_pipeline; simpl; lia).
  assert (Hlen : len (memory (@new_pipeline answering_backend)) <=
                 max_memory (@new_pipeline answering_backend))
    by (unfold new_pipeline, len; simpl; lia).
  split; [exact Hcap |]. split; [exact Hlen |].
  exact (memory_bound_invariant sample_memory_ops (@new_pipeline answering_backend) Hcap Hlen).
Defined.

Lemma get_recent_memory_nonpositive_witness :
  0 <= 0 /\
  get_recent_memory 0 (pipeline_with answering_backend sample_log) =
  (Ok sample_log, pipeline_with answering_backend sample_log).
Proof.
  split; [lia |].
  exact (get_recent_memory_nonpositive (pipeline_with answering_backend sample_log)
                                       (Z.le_refl 0)).
Defined.

Lemma search_memory_nonpositive_witness :
  0 <= 0 /\
  search_memory "paris" 0 (pipeline_with answering_backend sample_log) =
  (Ok [ exchange 1 "Where is Paris?" "In France.";
        exchange 3 "And of France?" "That is PARIS." ],
   pipeline_with answering_backend sample_log).
Proof.
  split; [lia |].
  exact (search_memory_nonpositive (pipeline_with answering_backend sample_log)
                                   "paris" (Z.le_refl 0)).
Defined.

Lemma query_not_loaded_witness :
  documents_loaded (@new_pipeline answering_backend) = false /\
  query start_of_2025 capital_question (@new_pipeline answering_backend) =
    (Raise (ValueError "No documents loaded"), @new_pipeline answering_backend) /\
  memory (exec (query start_of_2025 capital_question) (@new_pipeline answering_backend)) =
    memory (@new_pipeline answering_backend).
Proof.
  split; [reflexivity |].
  exact (query_not_loaded start_of_2025 capital_question
                          (@new_pipeline answering_backend) eq_refl).
Defined.

Lemma query_generation_failure_witness :
  documents_loaded (chatted_pipeline failing_backend) = true /\
  fst (rag_chain_invoke capital_question (chatted_pipeline failing_backend)) =
    Raise (Exception "quota exceeded") /\
  map response (memory (exec (query start_of_2025 capital_question)
                             (chatted_pipeline failing_backend))) =
    ["Error: quota exceeded"; "Error: quota exceeded"] /\
  fst (query start_of_2025 capital_question (chatted_pipeline failing_backend)) =
    Ok {| res_response := "Error: quota exceeded"; res_sources := []; num_sources := 0;
          memory_length := 2; success := false |}.
Proof.
  split; [reflexivity |]. split; [reflexivity |].
  destruct (@query_generation_failure failing_backend start_of_2025 capital_question
              (chatted_pipeline failing_backend) (Exception "quota exceeded")
              eq_refl eq_refl) as [Hlog Hreturn].
  split.
  - unfold exec. rewrite Hreturn. reflexivity.
  - rewrite Hreturn. reflexivity.
Defined.

(** C2 as the specification words it, at a concrete input: on a loaded
    pipeline with one exchange in its log, the call answers (reporting a log
    length of 1, that of the temporary log), and afterwards the log still
    holds that one exchange: it did not grow by one. *)
Lemma query_without_memory_drops_exchange :
  documents_loaded (chatted_pipeline answering_backend) = true /\
  fst (query_with_memory_context start_of_2025 "And of Italy?" false
                                 (chatted_pipeline answering_backend)) =
    Ok {| res_response := "Paris."; res_sources := ["notes.txt"]; num_sources := 1;
          memory_length := 1; success := true |} /\
  len (memory (chatted_pipeline answering_backend)) = 1 /\
  len (memory (exec (query_with_memory_context start_of_2025 "And of Italy?" false)
                    (chatted_pipeline answering_backend))) <>
    len (memory (chatted_pipeline answering_backend)) + 1.
Proof.
  split; [reflexivity |]. split; [reflexivity |]. split; [reflexivity |].
  vm_compute. discriminate.
Qed.

Lemma query_without_memory_restores_witness :
  documents_loaded (chatted_pipeline answering_backend) = true /\
  query_with_memory_context start_of_2025 "And of Italy?" false
                            (chatted_pipeline answering_backend) =
    (fst (query start_of_2025 "And of Italy?"
                (exec clear_memory (chatted_pipeline answering_backend))),
     chatted_pipeline answering_backend) /\
  memory (exec clear_memory (chatted_pipeline answering_backend)) = [] /\
  memory (exec (query_with_memory_context start_of_2025 "And of Italy?" false)
               (chatted_pipeline answering_backend)) =
    memory (chatted_pipeline answering_backend).
Proof.
  split; [reflexivity |].
  exact (@query_without_memory_restores answering_backend start_of_2025 "And of Italy?"
           (chatted_pipeline answering_backend) eq_refl).
Defined.

(** C4 as the specification words it, at a concrete input: documents are
    loaded, the query is processed and its record has [success = false],
    and the handler answers with status 500, outside the success class. *)
Lemma chat_failed_answer_not_success_class :
  documents_loaded (loaded_pipeline failing_backend) = true /\
  fst (query start_of_2025 capital_question (loaded_pipeline failing_backend)) =
    Ok {| res_response := "Error: quota exceeded"; res_sources := []; num_sources := 0;
          memory_length := 1; success := false |} /\
  fst (chat start_of_2025 capital_question (loaded_pipeline failing_backend)) =
    HTTPException 500 "Error: quota exceeded" /\
  success_class (status_of (fst (chat start_of_2025 capital_question
                                      (loaded_pipeline failing_backend)))) = false.
Proof. repeat split; reflexivity. Qed.

Lemma chat_failed_answer_is_500_witness :
  documents_loaded (chatted_pipeline failing_backend) = true /\
  success (mkQueryResult "Error: quota exceeded" [] 0 2 false) = false /\
  fst (chat start_of_2025 capital_question (chatted_pipeline failing_backend)) =
    HTTPException 500 "Error: quota exceeded" /\
  success_class (status_of (fst (chat start_of_2025 capital_question
                                      (chatted_pipeline failing_backend)))) = false.
Proof.
  split; [reflexivity |]. split; [reflexivity |].
  destruct (@chat_failed_answer_is_500 failing_backend start_of_2025 capital_question
              (chatted_pipeline failing_backend)
              (mkQueryResult "Error: quota exceeded" [] 0 2 false)
              (exec (query start_of_2025 capital_question)
                    (chatted_pipeline failing_backend))
              eq_refl eq_refl eq_refl) as [Hchat Hclass].
  split; [rewrite Hchat; reflexivity | exact Hclass].
Defined.

Lemma ingest_no_documents_witness :
  batch_documents (B := answering_backend) [broken_pdf; broken_pdf] = [] /\
  ingest_documents [broken_pdf; broken_pdf] (chatted_pipeline answering_backend) =
    (Raise (ValueError "No documents processed"), chatted_pipeline answering_backend).
Proof.
  split; [reflexivity |].
  exact (@ingest_no_documents answering_backend [broken_pdf; broken_pdf]
           (chatted_pipeline answering_backend) eq_refl).
Defined.

Lemma operations_keep_consistent_witness :
  consistent (@new_pipeline answering_backend) /\
  documents_loaded (run_operations sample_operations (@new_pipeline answering_backend)) = true /\
  consistent (run_operations sample_operations (@new_pipeline answering_backend)).
Proof.
  assert (Hnew : consistent (@new_pipeline answering_backend))
    by (unfold consistent, new_pipeline; simpl; discriminate).
  split; [exact Hnew |]. split; [reflexivity |].
  exact (operations_keep_consistent sample_operations Hnew).
Defined.

(* ================================================================== *)
(** * Further properties of the code *)

(** ** Strings *)

Lemma prefix_app (s1 : string) : forall s2,
  prefix s1 s2 = true <-> exists rest, s2 = s1 ++ rest.
Proof.
  induction s1 as [| a s1 IH]; intros s2.
  - split; [intros _; exists s2; reflexivity |].
    intros _. destruct s2; reflexivity.
  - destruct s2 as [| b s2]; simpl.
    + split; [discriminate | intros [rest Hrest]; discriminate].
    + destruct (ascii_dec a b) as [Heq | Hneq].
      * subst b. rewrite IH. split; intros [rest Hrest]; exists rest.
        -- rewrite Hrest. reflexivity.
        -- injection Hrest as Hrest. exact Hrest.
      * split; [discriminate |].
        intros [rest Hrest]. injection Hrest as Hab _. congruence.
Qed.

(** The model of Python's [in] on strings decides contiguous occurrence. *)
Lemma str_in_occurs (needle hay : string) :
  str_in needle hay = true <-> occurs_in needle hay.
Proof.
  unfold occurs_in. induction hay as [| c t IH]; cbn [str_in].
  - rewrite prefix_app. split.
    + intros [rest Hrest]. exists "", rest. exact Hrest.
    + intros [before [after Hocc]].
      destruct before; [exists after; exact Hocc | discriminate].
  - rewrite orb_true_iff, prefix_app, IH. split.
    + intros [[rest Hrest] | [before [after Hocc]]].
      * exists "", rest. exact Hrest.
      * exists (String c before), after. simpl. rewrite Hocc. reflexivity.
    + intros [before [after Hocc]]. destruct before as [| c' before].
      * left. exists after. exact Hocc.
      * right. simpl in Hocc. injection Hocc as _ Hocc.
        exists before, after. exact Hocc.
Qed.

Lemma prefix_refl (s : string) : prefix s s = true.
Proof.
  apply prefix_app. exists "". induction s as [| c s IH]; simpl.
  - reflexivity.
  - rewrite <- IH. reflexivity.
Qed.

Lemma str_in_refl (s : string) : str_in s s = true.
Proof. destruct s; cbn [str_in]; [reflexivity |]. rewrite prefix_refl. reflexivity. Qed.

Lemma str_in_empty (hay : string) : str_in "" hay = true.
Proof. destruct hay; reflexivity. Qed.

(** ** Lists *)

Lemma last_n_app_one {A} (k : nat) (l : list A) (x : A) :
  (0 < k)%nat -> last_n k (l ++ [x]) = (last_n (k - 1) l ++ [x])%list.
Proof.
  intros Hk. unfold last_n. rewrite length_app. simpl.
  rewrite skipn_app.
  replace (List.length l + 1 - k - List.length l)%nat with O by lia.
  replace (List.length l + 1 - k)%nat with (List.length l - (k - 1))%nat by lia.
  reflexivity.
Qed.

Lemma last_n_last_n {A} (j k : nat) (l : list A) :
  last_n j (last_n k l) = last_n (Nat.min j k) l.
Proof.
  unfold last_n at 1. rewrite last_n_length. unfold last_n.
  rewrite skipn_skipn. f_equal. lia.
Qed.

Lemma last_n_zero {A} (l : list A) : last_n 0 l = [].
Proof. unfold last_n. rewrite Nat.sub_0_r. apply skipn_all. Qed.

Lemma last_n_split {A} (k : nat) (l : list A) :
  exists skipped, l = (skipped ++ last_n k l)%list /\
                  len (last_n k l) = Z.min (Z.of_nat k) (len l).
Proof.
  exists (firstn (List.length l - k) l). split.
  - unfold last_n. symmetry. apply firstn_skipn.
  - unfold len. rewrite last_n_length. lia.
Qed.

(* ================================================================== *)
(** ** More on the memory log *)

Section MemoryExtras.
Context {B : Backend}.
Implicit Types (self : RAGPipeline B) (mem : list Exchange).

Lemma numbered_succ k count now q r s :
  numbered k (S count) now q r s =
  {| timestamp := now; question := q; response := r; sources := s;
     exchange_id := k + 1 |} :: numbered (k + 1) count now q r s.
Proof.
  unfold numbered. simpl. f_equal.
  rewrite <- seq_shift, map_map. apply map_ext. intros i.
  f_equal. lia.
Qed.

Lemma add_many_below_capacity count now q r s : forall self,
  len (memory self) + Z.of_nat count <= max_memory self ->
  memory (add_many count now q r s self) =
    (memory self ++ numbered (len (memory self)) count now q r s)%list /\
  max_memory (add_many count now q r s self) = max_memory self.
Proof.
  induction count as [| count IH]; intros self Hroom.
  - simpl. rewrite app_nil_r. split; reflexivity.
  - cbn [add_many].
    assert (Hstep : memory (exec (_add_to_memory now q r s) self) =
                    (memory self ++
                     [ {| timestamp := now; question := q; response := r; sources := s;
                          exchange_id := len (memory self) + 1 |} ])%list /\
                    max_memory (exec (_add_to_memory now q r s) self) = max_memory self).
    { rewrite add_to_memory_exec. simpl. split; [| reflexivity].
      unfold trimmed. rewrite len_app.
      destruct (Z.gtb_spec (len (memory self) + len [ {| timestamp := now; question := q;
                  response := r; sources := s; exchange_id := len (memory self) + 1 |} ])
                  (max_memory self)) as [Hgt | _]; [| reflexivity].
      unfold len in *. simpl in Hgt. lia. }
    destruct Hstep as [Hmem Hcap].
    destruct (IH (exec (_add_to_memory now q r s) self)) as [IHmem IHcap].
    { rewrite Hmem, Hcap, len_app. unfold len in *. simpl. lia. }
    split; [| rewrite IHcap; exact Hcap].
    rewrite IHmem, Hmem, len_app, numbered_succ, <- app_assoc. reflexivity.
Qed.

(** While the log stays within its capacity, [_add_to_memory] numbers the
    exchanges consecutively from the length of the log plus one, and none
    is dropped. *)
Theorem append_ids_count_up count now q r s self :
  len (memory self) + Z.of_nat count <= max_memory self ->
  memory (add_many count now q r s self) =
  (memory self ++ numbered (len (memory self)) count now q r s)%list.
Proof.
  intros Hroom. apply add_many_below_capacity. exact Hroom.
Qed.

Lemma add_to_memory_newest self now q r s :
  1 <= max_memory self ->
  memory (exec (_add_to_memory now q r s) self) =
  (last_n (Z.to_nat (max_memory self) - 1) (memory self) ++
   [ {| timestamp := now; question := q; response := r; sources := s;
        exchange_id := len (memory self) + 1 |} ])%list.
Proof.
  intros Hcap. rewrite add_to_memory_exec. simpl.
  rewrite trimmed_last_n by assumption.
  apply last_n_app_one. lia.
Qed.

(** Round trip: with a capacity of at least one, the exchange just appended
    is what [get_recent_memory(1)] returns, and its timestamp is the
    [latest_exchange_time] of the summary. *)
Theorem append_then_recent self now q r s :
  1 <= max_memory self ->
  fst (get_recent_memory 1 (exec (_add_to_memory now q r s) self)) =
    Ok [ {| timestamp := now; question := q; response := r; sources := s;
            exchange_id := len (memory self) + 1 |} ] /\
  exists summary,
    fst (get_memory_summary (exec (_add_to_memory now q r s) self)) = Ok summary /\
    latest_exchange_time summary = Some now.
Proof.
  intros Hcap. split.
  - rewrite get_recent_memory_positive by lia. simpl fst.
    rewrite add_to_memory_newest by assumption.
    rewrite last_n_app_one by (simpl; lia). simpl.
    rewrite last_n_zero. reflexivity.
  - unfold get_memory_summary, bind, gets, ret. simpl.
    eexists. split; [reflexivity |]. simpl.
    rewrite add_to_memory_newest by assumption.
    rewrite map_app. simpl (map Some [_]). rewrite last_last. reflexivity.
Qed.

Lemma filter_app_one {A} (f : A -> bool) (l : list A) (x : A) :
  f x = true -> filter f (l ++ [x]) = (filter f l ++ [x])%list.
Proof. intros Hx. rewrite filter_app. simpl. rewrite Hx. reflexivity. Qed.

Lemma matches_own_question ex : matches (lower (question ex)) ex = true.
Proof. unfold matches. rewrite str_in_refl. reflexivity. Qed.

(** Round trip: with a capacity of at least one and a positive limit, a
    search for the question of the exchange just appended returns that
    exchange as its last result. *)
Theorem append_then_search self now q r s limit :
  1 <= max_memory self ->
  0 < limit ->
  exists earlier,
    fst (search_memory q limit (exec (_add_to_memory now q r s) self)) =
    Ok (earlier ++ [ {| timestamp := now; question := q; response := r; sources := s;
                        exchange_id := len (memory self) + 1 |} ])%list.
Proof.
  intros Hcap Hlimit.
  rewrite search_memory_positive by assumption. simpl fst.
  rewrite add_to_memory_newest by assumption.
  set (ex := {| timestamp := now; question := q; response := r; sources := s;
                exchange_id := len (memory self) + 1 |}).
  rewrite filter_app_one by (apply (matches_own_question ex)).
  rewrite last_n_app_one by lia.
  eexists. reflexivity.
Qed.

(** For a positive [n], [get_recent_memory] returns a tail of the log of
    length [min n len]. *)
Theorem get_recent_memory_tail self n :
  0 < n ->
  exists older recent,
    fst (get_recent_memory n self) = Ok recent /\
    memory self = (older ++ recent)%list /\
    len recent = Z.min n (len (memory self)).
Proof.
  intros Hn. rewrite get_recent_memory_positive by assumption. simpl fst.
  destruct (last_n_split (Z.to_nat n) (memory self)) as [older [Hsplit Hlen]].
  exists older, (last_n (Z.to_nat n) (memory self)).
  split; [reflexivity |]. split; [exact Hsplit |].
  rewrite Hlen. lia.
Qed.

(** For a positive [limit], [search_memory] returns a tail of the matching
    entries, taken in the order of the log, of length [min limit] (number
    of matches). *)
Theorem search_memory_tail self q limit :
  0 < limit ->
  exists skipped results,
    fst (search_memory q limit self) = Ok results /\
    filter (matches (lower q)) (memory self) = (skipped ++ results)%list /\
    len results = Z.min limit (len (filter (matches (lower q)) (memory self))).
Proof.
  intros Hlimit. rewrite search_memory_positive by assumption. simpl fst.
  destruct (last_n_split (Z.to_nat limit) (filter (matches (lower q)) (memory self)))
    as [skipped [Hsplit Hlen]].
  exists skipped, (last_n (Z.to_nat limit) (filter (matches (lower q)) (memory self))).
  split; [reflexivity |]. split; [exact Hsplit |].
  rewrite Hlen. lia.
Qed.

(** Whatever the limit, [search_memory] returns some of the matches with
    the first ones left out. *)
Lemma search_memory_skips self q limit :
  exists k,
    search_memory q limit self =
    (Ok (skipn k (filter (matches (lower q)) (memory self))), self).
Proof.
  destruct (Z.lt_ge_cases 0 limit) as [Hpos | Hnonpos].
  - rewrite search_memory_positive by assumption.
    unfold last_n. eexists. reflexivity.
  - unfold search_memory, bind, gets, ret. simpl.
    destruct (memory self) as [| ex mem] eqn:Hmem.
    + exists O. reflexivity.
    + rewrite search_loop_filter, slice_from_nonneg by lia.
      eexists. reflexivity.
Qed.

Lemma In_skipn {A} (k : nat) (l : list A) (x : A) : In x (skipn k l) -> In x l.
Proof.
  intros Hin. rewrite <- (firstn_skipn k l). apply in_or_app. right. exact Hin.
Qed.

(** Whatever the limit, every exchange [search_memory] returns is in the
    log, and the lowered query occurs in its lowered question or in its
    lowered response. *)
Theorem search_memory_sound self q limit :
  exists results,
    fst (search_memory q limit self) = Ok results /\
    Forall (fun ex => In ex (memory self) /\
                      (occurs_in (lower q) (lower (question ex)) \/
                       occurs_in (lower q) (lower (response ex))))
           results.
Proof.
  destruct (search_memory_skips self q limit) as [k Hk].
  rewrite Hk. simpl fst. eexists. split; [reflexivity |].
  apply Forall_forall. intros ex Hin.
  apply In_skipn, filter_In in Hin. destruct Hin as [Hmem Hmatch].
  split; [exact Hmem |].
  unfold matches in Hmatch. apply orb_true_iff in Hmatch.
  rewrite <- !str_in_occurs. exact Hmatch.
Qed.

Lemma filter_all {A} (f : A -> bool) (l : list A) :
  (forall x, f x = true) -> filter f l = l.
Proof.
  intros Hall. induction l as [| x l IH]; simpl; [reflexivity |].
  rewrite Hall, IH. reflexivity.
Qed.

(** A search for the empty text is [get_recent_memory]: every exchange
    matches, so the two calls agree for every integer, positive or not. *)
Theorem search_empty_is_recent self n :
  search_memory "" n self = get_recent_memory n self.
Proof.
  unfold search_memory, get_recent_memory, bind, gets, ret. simpl.
  destruct (memory self) as [| ex mem]; [reflexivity |].
  rewrite lower_empty, search_loop_filter. cbn [app].
  rewrite filter_all; [reflexivity |].
  intros x. unfold matches. rewrite str_in_empty. reflexivity.
Qed.

(** Two capacity changes in a row keep the last [min] of the two clamped
    capacities and leave the second one as the capacity. *)
Theorem set_memory_length_twice self a b :
  memory (exec (set_memory_length b) (exec (set_memory_length a) self)) =
    last_n (Z.to_nat (Z.min (Z.max 1 a) (Z.max 1 b))) (memory self) /\
  max_memory (exec (set_memory_length b) (exec (set_memory_length a) self)) = Z.max 1 b.
Proof.
  rewrite !set_memory_length_exec. simpl. split; [| reflexivity].
  rewrite !trimmed_last_n by lia. rewrite last_n_last_n.
  f_equal. lia.
Qed.

End MemoryExtras.

(* ================================================================== *)
(** ** More on the chain and on queries *)

Section QueryExtras.
Context {B : Backend}.
Implicit Types (self rag : RAGPipeline B).

(** [get_sources] lists exactly the file names of the retrieved documents,
    each once, so there are no more sources than documents. *)
Theorem get_sources_distinct (docs : list Document) :
  NoDup (get_sources docs) /\
  (forall name, In name (get_sources docs) <->
                exists doc, In doc docs /\ filename_of doc = name) /\
  len (get_sources docs) <= len docs.
Proof.
  unfold get_sources. split; [apply list_set_NoDup |]. split.
  - intros name. rewrite list_set_In, in_map_iff.
    split; intros [doc [H1 H2]]; exists doc; auto.
  - unfold len. apply inj_le.
    rewrite <- (length_map filename_of docs).
    apply NoDup_incl_length; [apply list_set_NoDup |].
    intros name Hin. exact (proj1 (list_set_In _ _) Hin).
Qed.

Lemma last_n_nonempty {A} (l : list A) : l <> [] -> last_n 5 l <> [].
Proof.
  intros Hne Hnil. apply (f_equal (@List.length A)) in Hnil.
  rewrite last_n_length in Hnil. destruct l; [contradiction | simpl in Hnil; lia].
Qed.

(** The rendering of the history reads the last five exchanges only. *)
Theorem format_memory_last_five (mem : list Exchange) :
  format_memory mem = format_memory (last_n 5 mem).
Proof.
  destruct mem as [| ex rest]; [reflexivity |].
  remember (ex :: rest) as log eqn:Hlog.
  assert (Hne : log <> []) by (rewrite Hlog; discriminate).
  assert (Hform : forall l, l <> [] ->
            format_memory l =
            join nl (map (fun ex => "Q: " ++ question ex ++ nl ++
                                    "A: " ++ str_prefix 100 (response ex) ++ "..." ++ nl)
                         (last_n 5 l))).
  { intros l Hl. destruct l; [contradiction |].
    unfold format_memory. rewrite (slice_from_neg (n := 5)) by lia. reflexivity. }
  rewrite (Hform log Hne), (Hform _ (last_n_nonempty Hne)), last_n_last_n.
  reflexivity.
Qed.

(** What [query] does on a loaded pipeline, whatever the chain does: it
    returns a record, and the log is the old log with one exchange added,
    carrying the question and the response and sources returned, and
    trimmed; nothing else changes. *)
Lemma query_loaded_effect now q self :
  documents_loaded self = true ->
  exists resp srcs ok,
    query now q self =
    (Ok {| res_response := resp; res_sources := srcs; num_sources := len srcs;
           memory_length :=
             len (trimmed (max_memory self)
                    (memory self ++
                     [ {| timestamp := now; question := q; response := resp;
                          sources := srcs; exchange_id := len (memory self) + 1 |} ]));
           success := ok |},
     {| vectorstore := vectorstore self; rag_chain := rag_chain self;
        documents_loaded := documents_loaded self;
        memory := trimmed (max_memory self)
                    (memory self ++
                     [ {| timestamp := now; question := q; response := resp;
                          sources := srcs; exchange_id := len (memory self) + 1 |} ]);
        max_memory := max_memory self |}).
Proof.
  intros Hloaded. rewrite (query_loaded now q self Hloaded).
  destruct (fst (rag_chain_invoke q self)) as [result | e]; simpl;
    rewrite add_to_memory_exec; simpl.
  - exists (chain_response result), (chain_sources result), true. reflexivity.
  - exists ("Error: " ++ str e), [], false. reflexivity.
Qed.

(** Every query on a loaded pipeline with a capacity of at least one,
    answered or failed, is recorded as the newest entry of the log with the
    response and the sources it returns; [num_sources] counts the sources
    returned, and [memory_length] is the old length plus one, capped by
    the capacity. *)
Theorem query_is_recorded now q self :
  documents_loaded self = true ->
  1 <= max_memory self ->
  exists result self' older,
    query now q self = (Ok result, self') /\
    memory self' =
      (older ++ [ {| timestamp := now; question := q;
                     response := res_response result; sources := res_sources result;
                     exchange_id := len (memory self) + 1 |} ])%list /\
    num_sources result = len (res_sources result) /\
    memory_length result = len (memory self') /\
    memory_length result = Z.min (len (memory self) + 1) (max_memory self).
Proof.
  intros Hloaded Hcap.
  destruct (query_loaded_effect now q self Hloaded) as [resp [srcs [ok Hq]]].
  rewrite Hq. do 2 eexists. simpl.
  rewrite trimmed_last_n by assumption.
  rewrite last_n_app_one by lia.
  eexists. split; [reflexivity |]. split; [reflexivity |].
  split; [reflexivity |]. split; [reflexivity |].
  unfold len. rewrite length_app, last_n_length. simpl. lia.
Qed.

(** On a loaded pipeline whose retriever and model answer, [query] returns
    the model's text for the prompt built from the retrieved documents, the
    rendering of the log as it is before the call (answers cut after 100
    characters), and the question; the sources are the file names of the
    retrieved documents as [list(set(...))] lists them. *)
Theorem query_answers_from_prompt now q self c docs answer :
  documents_loaded self = true ->
  rag_chain self = Some c ->
  retriever (chain_store c) q = Ok docs ->
  llm (prompt (format_docs docs) (format_memory (memory self)) q) = Ok answer ->
  exists n,
    fst (query now q self) =
    Ok {| res_response := answer; res_sources := get_sources docs;
          num_sources := len (get_sources docs); memory_length := n;
          success := true |}.
Proof.
  intros Hloaded Hc Hdocs Hanswer.
  rewrite query_loaded by exact Hloaded.
  unfold rag_chain_invoke, invoke, bind, gets, call, ret.
  simpl. rewrite Hc. simpl. rewrite Hdocs. simpl. rewrite Hanswer. simpl.
  eauto.
Qed.

(** The status of the chat handler: 400 without documents (and then the
    pipeline is untouched), 200 when the chain ran, 500 when it raised. *)
Theorem chat_status now chat_message rag :
  status_of (fst (chat now chat_message rag)) =
    (if negb (documents_loaded rag) then 400
     else match fst (rag_chain_invoke chat_message rag) with
          | Ok _ => 200
          | Raise _ => 500
          end) /\
  snd (chat now chat_message rag) =
    (if negb (documents_loaded rag) then rag else exec (query now chat_message) rag).
Proof.
  unfold chat, exec. destruct (documents_loaded rag) eqn:Hloaded; simpl.
  - rewrite (query_loaded now chat_message rag Hloaded).
    destruct (fst (rag_chain_invoke chat_message rag)); split; reflexivity.
  - split; reflexivity.
Qed.

End QueryExtras.

(* ================================================================== *)
(** ** More on ingestion *)

Section IngestExtras.
Context {B : Backend}.
Implicit Types (self rag : RAGPipeline B).

Lemma load_files_accounts files : forall acc,
  processed_files (load_files files acc) =
    (processed_files acc ++ map filename (filter loads files))%list /\
  List.length (errors (load_files files acc)) =
    (List.length (errors acc) + List.length (filter (fun f => negb (loads f)) files))%nat.
Proof.
  induction files as [| f rest IH]; intros acc; cbn [load_files filter].
  - simpl. rewrite app_nil_r. split; [reflexivity | lia].
  - destruct (load_file f) as [docs | e] eqn:Hload.
    + assert (Hl : loads f = true) by (unfold loads; rewrite Hload; reflexivity).
      rewrite Hl.
      destruct (IH {| documents := documents acc ++ docs;
                      processed_files := processed_files acc ++ [filename f];
                      errors := errors acc |}) as [Hp He].
      rewrite Hp, He. cbn [processed_files errors negb map].
      rewrite <- app_assoc. split; reflexivity.
    + assert (Hl : loads f = false) by (unfold loads; rewrite Hload; reflexivity).
      rewrite Hl.
      destruct (IH {| documents := documents acc;
                      processed_files := processed_files acc;
                      errors := errors acc ++
                                ["Error with " ++ filename f ++ ": " ++ str e] |})
        as [Hp He].
      rewrite Hp, He. cbn [processed_files errors negb map].
      rewrite length_app. simpl. split; [reflexivity | lia].
Qed.

(** The loop of [ingest_documents] goes through the whole batch: the
    processed files are the names of the files that load, in the order of
    the batch, there is one error message per file that does not, and so
    every file is accounted for once. *)
Theorem load_files_partition files :
  let loaded := load_files files {| documents := []; processed_files := []; errors := [] |} in
  processed_files loaded = map filename (filter loads files) /\
  List.length (errors loaded) = List.length (filter (fun f => negb (loads f)) files) /\
  (List.length (processed_files loaded) + List.length (errors loaded))%nat =
    List.length files.
Proof.
  intros loaded. subst loaded.
  destruct (load_files_accounts files
              {| documents := []; processed_files := []; errors := [] |}) as [Hp He].
  simpl in Hp, He. rewrite Hp, He, length_map.
  split; [reflexivity |]. split; [reflexivity |].
  rewrite <- (filter_length loads files). reflexivity.
Qed.

Lemma load_file_tags f docs :
  load_file f = Ok docs ->
  Forall (fun doc => meta_filename doc = Some (filename f)) docs.
Proof.
  unfold load_file.
  destruct (if endswith (filename f) ".pdf" then _ else _) as [ds | e];
    [| discriminate].
  intros Hdocs. injection Hdocs as <-.
  apply Forall_forall. intros doc Hin. apply in_map_iff in Hin.
  destruct Hin as [d [<- _]]. reflexivity.
Qed.

Lemma load_files_documents files : forall acc,
  documents (load_files files acc) =
  (documents acc ++
   flat_map (fun f => match load_file f with Ok docs => docs | Raise _ => [] end)
            files)%list.
Proof.
  induction files as [| f rest IH]; intros acc; simpl.
  - rewrite app_nil_r. reflexivity.
  - destruct (load_file f) as [docs | e]; rewrite IH; simpl.
    + rewrite <- app_assoc. reflexivity.
    + reflexivity.
Qed.

(** Every document that reaches the splitter carries, under the metadata
    key [filename], the name of a file of the batch that loaded. *)
Theorem batch_documents_tagged files :
  Forall (fun doc => exists f, In f files /\ loads f = true /\
                               meta_filename doc = Some (filename f))
         (batch_documents files).
Proof.
  unfold batch_documents. rewrite load_files_documents. simpl.
  apply Forall_forall. intros doc Hin. apply in_flat_map in Hin.
  destruct Hin as [f [Hf Hdoc]]. exists f. split; [exact Hf |].
  unfold loads. destruct (load_file f) as [docs | e] eqn:Hload; [| contradiction].
  split; [reflexivity |].
  pose proof (load_file_tags f Hload) as Htags.
  rewrite Forall_forall in Htags. apply Htags. exact Hdoc.
Qed.

Lemma ingest_raise_same files self e self' :
  ingest_documents files self = (Raise e, self') -> self' = self.
Proof.
  unfold ingest_documents.
  destruct (documents _) as [| doc docs].
  - unfold raise. intros Hraise. injection Hraise as _ <-. reflexivity.
  - unfold bind at 1, call.
    destruct (FAISS_from_documents _) as [store | e'].
    + discriminate.
    + intros Hraise. injection Hraise as _ <-. reflexivity.
Qed.

(** A failed ingestion is atomic: whatever [ingest_documents] raises, no
    documents or an index that cannot be built, the pipeline is left as it
    was. *)
Theorem ingest_failure_atomic files self e self' :
  ingest_documents files self = (Raise e, self') -> self' = self.
Proof. apply ingest_raise_same. Qed.

(** A successful ingestion replaces the store by the one built from the
    chunks of this batch alone, builds the chain on it, sets
    [documents_loaded], and keeps the memory log and its capacity; the
    record returned counts the chunks and lists processed files and
    errors. *)
Theorem ingest_success files self store :
  batch_documents files <> [] ->
  FAISS_from_documents (split_documents (batch_documents files)) = Ok store ->
  ingest_documents files self =
  (Ok {| ing_processed_files := map filename (filter loads files);
         total_chunks := len (split_documents (batch_documents files));
         ing_errors :=
           errors (load_files files
                     {| documents := []; processed_files := []; errors := [] |});
         ing_success := true |},
   {| vectorstore := Some store; rag_chain := Some (mkChain store);
      documents_loaded := true;
      memory := memory self; max_memory := max_memory self |}).
Proof.
  intros Hsome Hstore.
  destruct (load_files_accounts files
              {| documents := []; processed_files := []; errors := [] |})
    as [Hprocessed _].
  simpl in Hprocessed.
  unfold ingest_documents. fold (batch_documents files).
  destruct (batch_documents files) as [| doc docs] eqn:Hbatch; [contradiction |].
  unfold bind at 1, call. rewrite Hstore.
  rewrite <- Hprocessed. reflexivity.
Qed.

(** Ingestion never touches the conversation: the memory log and its
    capacity are the same after [ingest_documents], whatever its outcome. *)
Theorem ingest_keeps_memory files self :
  memory (exec (ingest_documents files) self) = memory self /\
  max_memory (exec (ingest_documents files) self) = max_memory self.
Proof.
  destruct (ingest_documents_cases files self) as [Hsame | [store Hnew]].
  - rewrite Hsame. split; reflexivity.
  - rewrite Hnew. split; reflexivity.
Qed.

End IngestExtras.

(* ================================================================== *)
(** ** The pipelines the operations produce *)

Section Reachable.
Context {B : Backend}.
Implicit Types (self rag : RAGPipeline B).

Lemma new_pipeline_well_formed : well_formed (@new_pipeline B).
Proof.
  unfold well_formed, new_pipeline, len. simpl.
  repeat split; try reflexivity; lia.
Qed.

Lemma run_operation_well_formed op self :
  well_formed self -> well_formed (run_operation op self).
Proof.
  unfold well_formed. intros [Hcap [Hlen [Hempty [Hstore Hchain]]]].
  destruct op as [files | now q | now q | | n |]; simpl run_operation.
  - destruct (ingest_documents_cases files self) as [Hsame | [store Hnew]].
    + rewrite Hsame. auto.
    + rewrite Hnew. simpl. repeat split; auto. discriminate.
  - unfold exec. destruct (documents_loaded self) eqn:Hloaded.
    + destruct (query_loaded_effect now q self Hloaded) as [resp [srcs [ok Hq]]].
      rewrite Hq. simpl. rewrite Hloaded.
      repeat split; auto; [apply trimmed_len; assumption | discriminate].
    + rewrite (query_raises_unloaded now q self Hloaded). simpl.
      rewrite Hloaded. auto.
  - unfold exec. destruct (documents_loaded self) eqn:Hloaded.
    + rewrite (query_without_memory_loaded now q self Hloaded). simpl.
      rewrite Hloaded. auto.
    + rewrite (query_without_memory_unloaded now q self Hloaded). simpl.
      rewrite Hloaded. unfold len. simpl. repeat split; auto. lia.
  - simpl. unfold len. simpl. repeat split; auto. lia.
  - rewrite set_memory_length_exec. simpl.
    split; [lia |]. split; [apply trimmed_len; lia |].
    split; [| auto].
    intros Hnot. rewrite (Hempty Hnot). unfold trimmed.
    destruct (_ >? _); [unfold slice_from; apply skipn_nil | reflexivity].
  - simpl. unfold len. simpl. repeat split; auto. lia.
Qed.

Lemma run_operations_well_formed ops : forall self,
  well_formed self -> well_formed (run_operations ops self).
Proof.
  unfold run_operations.
  induction ops as [| op rest IH]; intros self Hself; simpl.
  - exact Hself.
  - apply IH. apply run_operation_well_formed. exact Hself.
Qed.

(** From a new pipeline, every sequence of ingests, queries, queries
    without memory, clears, capacity changes and resets leaves a capacity
    of at least one and a log no longer than it. *)
Theorem operations_keep_bound ops :
  1 <= max_memory (run_operations ops (@new_pipeline B)) /\
  len (memory (run_operations ops (@new_pipeline B))) <=
    max_memory (run_operations ops (@new_pipeline B)).
Proof.
  destruct (run_operations_well_formed ops new_pipeline_well_formed)
    as [Hcap [Hlen _]].
  split; assumption.
Qed.

(** From a new pipeline, the log is empty whenever no documents are
    loaded: only a query on a loaded pipeline writes to it, and the reset
    that unloads the documents clears it. *)
Theorem unloaded_log_is_empty ops :
  documents_loaded (run_operations ops (@new_pipeline B)) = false ->
  memory (run_operations ops (@new_pipeline B)) = [].
Proof.
  destruct (run_operations_well_formed ops new_pipeline_well_formed)
    as [_ [_ [Hempty _]]].
  exact Hempty.
Qed.

(** From a new pipeline, [get_status] reports the same value for
    [documents_loaded], [vectorstore_ready] and [rag_chain_ready], and
    [memory_full] exactly when the log has [max_memory] entries. *)
Theorem status_flags_agree ops :
  exists status,
    fst (get_status (run_operations ops (@new_pipeline B))) = Ok status /\
    vectorstore_ready status = st_documents_loaded status /\
    rag_chain_ready status = st_documents_loaded status /\
    memory_full (memory_status status) =
      (total_exchanges (memory_status status) =? max_memory_length status).
Proof.
  destruct (run_operations_well_formed ops new_pipeline_well_formed)
    as [_ [Hlen [_ [Hstore Hchain]]]].
  unfold get_status, get_memory_summary, bind, gets, ret. simpl.
  eexists. split; [reflexivity |]. simpl.
  split; [symmetry; exact Hstore |]. split; [symmetry; exact Hchain |].
  destruct (Z.eqb_spec (len (memory (run_operations ops new_pipeline)))
                       (max_memory (run_operations ops new_pipeline))) as [Heq | Hneq].
  - rewrite Heq. apply Z.geb_le. lia.
  - destruct (Z.geb_spec (len (memory (run_operations ops new_pipeline)))
                         (max_memory (run_operations ops new_pipeline))); [lia | reflexivity].
Qed.

(** From a new pipeline, a query without memory never changes the
    pipeline, loaded or not. *)
Theorem query_without_memory_neutral ops now q :
  exec (query_with_memory_context now q false) (run_operations ops (@new_pipeline B)) =
  run_operations ops (@new_pipeline B).
Proof.
  destruct (run_operations_well_formed ops new_pipeline_well_formed)
    as [_ [_ [Hempty _]]].
  unfold exec.
  destruct (documents_loaded (run_operations ops new_pipeline)) eqn:Hloaded.
  - rewrite (query_without_memory_loaded now q _ Hloaded). reflexivity.
  - rewrite (query_without_memory_unloaded now q _ Hloaded). simpl.
    specialize (Hempty eq_refl).
    destruct (run_operations ops new_pipeline) as [vs rc loaded mem cap].
    simpl in *. subst mem. reflexivity.
Qed.

(** After [reset], whatever came before, [get_status] reports no documents,
    no store, no chain, an empty log that is not full, and the capacity
    that was set. *)
Theorem reset_then_status self :
  1 <= max_memory self ->
  fst (get_status (exec reset self)) =
  Ok {| st_documents_loaded := false; vectorstore_ready := false;
        rag_chain_ready := false;
        memory_status := {| total_exchanges := 0; memory_empty := true;
                            memory_full := false; latest_exchange_time := None |};
        max_memory_length := max_memory self |}.
Proof.
  intros Hcap.
  unfold get_status, get_memory_summary, reset, exec, bind, gets, ret,
    set_vectorstore, set_rag_chain, set_documents_loaded, set_memory.
  simpl. unfold len. simpl.
  destruct (Z.geb_spec 0 (max_memory self)); [lia | reflexivity].
Qed.

End Reachable.

(* ================================================================== *)
(** ** The other handlers *)

Section HandlerProperties.
Context {B : Backend}.
Implicit Types (self rag : RAGPipeline B).

(** The status of the upload handler: 400 for an empty batch, 500 when no
    document is decoded or the index cannot be built, 200 otherwise. *)
Theorem upload_files_status files rag :
  status_of (fst (Api.upload_files files rag)) =
  match files with
  | [] => 400
  | _ =>
      match batch_documents files with
      | [] => 500
      | _ =>
          match FAISS_from_documents (split_documents (batch_documents files)) with
          | Ok _ => 200
          | Raise _ => 500
          end
      end
  end.
Proof.
  unfold Api.upload_files. destruct files as [| f rest]; [reflexivity |].
  unfold ingest_documents. fold (batch_documents (f :: rest)).
  destruct (batch_documents (f :: rest)) as [| doc docs]; [reflexivity |].
  unfold bind at 1, call.
  destruct (FAISS_from_documents _) as [store | e]; reflexivity.
Qed.

(** An upload that is not answered with 200 leaves the pipeline as it
    was. *)
Theorem upload_files_failure_atomic files rag :
  status_of (fst (Api.upload_files files rag)) <> 200 ->
  snd (Api.upload_files files rag) = rag.
Proof.
  unfold Api.upload_files. destruct files as [| f rest]; [reflexivity |].
  destruct (ingest_documents (f :: rest) rag) as [[result | e] rag'] eqn:Hingest; simpl.
  - intros Hstatus. contradiction Hstatus. reflexivity.
  - intros _. apply (ingest_raise_same (f :: rest) rag Hingest).
Qed.

(** A batch from which nothing is decoded is answered with status 500 and
    the text of the [ValueError]. *)
Theorem upload_files_no_documents files rag :
  files <> [] ->
  batch_documents files = [] ->
  Api.upload_files files rag =
  (HTTPException 500 "Error processing files: No documents processed", rag).
Proof.
  intros Hfiles Hnone. unfold Api.upload_files.
  destruct files as [| f rest]; [contradiction |].
  unfold ingest_documents. fold (batch_documents (f :: rest)).
  rewrite Hnone. reflexivity.
Qed.

(** The capacity handler either rejects the value (below one: status 400,
    pipeline untouched) or sets exactly that capacity and keeps the last
    [max_length] exchanges. *)
Theorem api_set_memory_length max_length rag :
  Api.set_memory_length max_length rag =
  if max_length <? 1 then
    (HTTPException 400 "Memory length must be at least 1", rag)
  else
    (Returned ("Memory length set to " ++ str_int max_length),
     {| vectorstore := vectorstore rag; rag_chain := rag_chain rag;
        documents_loaded := documents_loaded rag;
        memory := last_n (Z.to_nat max_length) (memory rag);
        max_memory := max_length |}).
Proof.
  unfold Api.set_memory_length.
  destruct (Z.ltb_spec max_length 1) as [Hlow | Hok]; [reflexivity |].
  pose proof (set_memory_length_exec rag max_length) as Hexec.
  unfold exec in Hexec.
  destruct (set_memory_length max_length rag) as [[[] | e] rag'] eqn:Hset.
  - simpl in Hexec. rewrite Hexec.
    rewrite trimmed_last_n by lia.
    rewrite Z.max_r by lia. reflexivity.
  - exfalso. revert Hset.
    unfold set_memory_length, bind, gets, ret, set_memory, set_max_memory. simpl.
    destruct (len _ >? Z.max 1 max_length); discriminate.
Qed.

(** The handler for a chat without memory never changes the pipeline:
    without documents it answers 400 before calling the pipeline, and with
    documents the saved log is put back. *)
Theorem chat_without_memory_neutral now chat_message rag :
  snd (Api.chat_without_memory now chat_message rag) = rag.
Proof.
  unfold Api.chat_without_memory.
  destruct (documents_loaded rag) eqn:Hloaded; simpl; [| reflexivity].
  rewrite (query_without_memory_loaded now chat_message rag Hloaded).
  destruct (fst (query now chat_message (exec clear_memory rag))) as [result | e];
    [destruct (success result) |]; reflexivity.
Qed.

(** When that handler answers with a body, on a pipeline with a capacity of
    at least one, the [memory_length] in it is 1 whatever the length of the
    log: it is the length of the temporary log of the call. *)
Theorem chat_without_memory_length now chat_message rag body :
  1 <= max_memory rag ->
  fst (Api.chat_without_memory now chat_message rag) = Returned body ->
  cr_memory_length body = 1.
Proof.
  intros Hcap. unfold Api.chat_without_memory.
  destruct (documents_loaded rag) eqn:Hloaded; simpl; [| discriminate].
  rewrite (query_without_memory_loaded now chat_message rag Hloaded). simpl fst.
  destruct (query_loaded_effect now chat_message (exec clear_memory rag) Hloaded)
    as [resp [srcs [ok Hq]]].
  rewrite Hq. simpl.
  destruct ok; simpl; [| discriminate].
  intros Hbody. injection Hbody as <-. simpl.
  rewrite trimmed_last_n by assumption.
  unfold len. rewrite last_n_length. simpl. lia.
Qed.

End HandlerProperties.

(* ================================================================== *)
(** ** The further properties at concrete inputs *)

Lemma append_ids_count_up_witness :
  len (memory (@new_pipeline answering_backend)) + Z.of_nat 20 <=
    max_memory (@new_pipeline answering_backend) /\
  map exchange_id
      (memory (add_many 20 start_of_2025 "q" "r" [] (@new_pipeline answering_backend))) =
    [1; 2; 3; 4; 5; 6; 7; 8; 9; 10; 11; 12; 13; 14; 15; 16; 17; 18; 19; 20].
Proof.
  assert (Hroom : len (memory (@new_pipeline answering_backend)) + Z.of_nat 20 <=
                  max_memory (@new_pipeline answering_backend))
    by (unfold new_pipeline, len; simpl; lia).
  split; [exact Hroom |].
  rewrite (append_ids_count_up 20 start_of_2025 "q" "r" []
                               (@new_pipeline answering_backend) Hroom).
  reflexivity.
Defined.

Lemma append_then_recent_witness :
  1 <= max_memory (pipeline_with answering_backend sample_log) /\
  fst (get_recent_memory 1
         (exec (_add_to_memory start_of_2025 "q4" "r4" ["notes.txt"])
               (pipeline_with answering_backend sample_log))) =
    Ok [ {| timestamp := start_of_2025; question := "q4"; response := "r4";
            sources := ["notes.txt"]; exchange_id := 4 |} ] /\
  exists summary,
    fst (get_memory_summary
           (exec (_add_to_memory start_of_2025 "q4" "r4" ["notes.txt"])
                 (pipeline_with answering_backend sample_log))) = Ok summary /\
    latest_exchange_time summary = Some start_of_2025.
Proof.
  assert (Hcap : 1 <= max_memory (pipeline_with answering_backend sample_log))
    by (unfold pipeline_with, exec, set_memory, new_pipeline; simpl; lia).
  split; [exact Hcap |].
  exact (append_then_recent (pipeline_with answering_backend sample_log)
                            start_of_2025 "q4" "r4" ["notes.txt"] Hcap).
Defined.

Lemma append_then_search_witness :
  1 <= max_memory (pipeline_with answering_backend sample_log) /\
  0 < 2 /\
  exists earlier,
    fst (search_memory "Where is Paris?" 2
           (exec (_add_to_memory start_of_2025 "Where is Paris?" "In France." [])
                 (pipeline_with answering_backend sample_log))) =
    Ok (earlier ++
        [ {| timestamp := start_of_2025; question := "Where is Paris?";
             response := "In France."; sources := []; exchange_id := 4 |} ])%list.
Proof.
  assert (Hcap : 1 <= max_memory (pipeline_with answering_backend sample_log))
    by (unfold pipeline_with, exec, set_memory, new_pipeline; simpl; lia).
  split; [exact Hcap |]. split; [lia |].
  exact (append_then_search (pipeline_with answering_backend sample_log)
                            start_of_2025 "Where is Paris?" "In France." []
                            Hcap (eq_refl : 0 < 2)).
Defined.

Lemma get_recent_memory_tail_witness :
  0 < 2 /\
  exists older recent,
    fst (get_recent_memory 2 (pipeline_with answering_backend sample_log)) = Ok recent /\
    memory (pipeline_with answering_backend sample_log) = (older ++ recent)%list /\
    len recent = Z.min 2 (len (memory (pipeline_with answering_backend sample_log))).
Proof.
  split; [lia |].
  exact (get_recent_memory_tail (pipeline_with answering_backend sample_log)
                                (eq_refl : 0 < 2)).
Defined.

Lemma search_memory_tail_witness :
  0 < 1 /\
  exists skipped results,
    fst (search_memory "paris" 1 (pipeline_with answering_backend sample_log)) =
      Ok results /\
    filter (matches (B := answering_backend) (lower (Backend := answering_backend) "paris"))
           (memory (pipeline_with answering_backend sample_log)) =
      (skipped ++ results)%list /\
    len results =
      Z.min 1 (len (filter (matches (B := answering_backend)
                                    (lower (Backend := answering_backend) "paris"))
                           (memory (pipeline_with answering_backend sample_log)))).
Proof.
  split; [lia |].
  exact (search_memory_tail (pipeline_with answering_backend sample_log) "paris"
                            (eq_refl : 0 < 1)).
Defined.

Lemma query_is_recorded_witness :
  documents_loaded (chatted_pipeline failing_backend) = true /\
  1 <= max_memory (chatted_pipeline failing_backend) /\
  exists result self' older,
    query start_of_2025 "And of Italy?" (chatted_pipeline failing_backend) =
      (Ok result, self') /\
    memory self' =
      (older ++ [ {| timestamp := start_of_2025; question := "And of Italy?";
                     response := res_response result; sources := res_sources result;
                     exchange_id := len (memory (chatted_pipeline failing_backend)) + 1 |} ])%list /\
    num_sources result = len (res_sources result) /\
    memory_length result = len (memory self') /\
    memory_length result =
      Z.min (len (memory (chatted_pipeline failing_backend)) + 1)
            (max_memory (chatted_pipeline failing_backend)).
Proof.
  assert (Hcap : 1 <= max_memory (chatted_pipeline failing_backend))
    by (vm_compute; discriminate).
  split; [reflexivity |]. split; [exact Hcap |].
  exact (@query_is_recorded failing_backend start_of_2025 "And of Italy?"
           (chatted_pipeline failing_backend) eq_refl Hcap).
Defined.

Lemma query_answers_from_prompt_witness :
  documents_loaded (two_file_pipeline answering_backend) = true /\
  rag_chain (two_file_pipeline answering_backend) =
    Some (mkChain (B := answering_backend) two_documents) /\
  retriever (Backend := answering_backend) two_documents "And of Italy?" =
    Ok two_documents /\
  len (memory (two_file_pipeline answering_backend)) = 1 /\
  exists n,
    fst (query start_of_2025 "And of Italy?" (two_file_pipeline answering_backend)) =
    Ok {| res_response := "Paris."; res_sources := ["notes.txt"; "README.md"];
          num_sources := 2; memory_length := n; success := true |}.
Proof.
  split; [reflexivity |]. split; [reflexivity |]. split; [reflexivity |].
  split; [reflexivity |].
  exact (@query_answers_from_prompt answering_backend start_of_2025 "And of Italy?"
           (two_file_pipeline answering_backend)
           (mkChain (B := answering_backend) two_documents) two_documents
           "Paris." eq_refl eq_refl eq_refl eq_refl).
Defined.

Lemma query_without_memory_prompt_witness :
  documents_loaded (two_file_pipeline answering_backend) = true /\
  rag_chain (two_file_pipeline answering_backend) =
    Some (mkChain (B := answering_backend) two_documents) /\
  retriever (Backend := answering_backend) two_documents "And of Italy?" =
    Ok two_documents /\
  len (memory (two_file_pipeline answering_backend)) = 1 /\
  exists n,
    fst (query_with_memory_context start_of_2025 "And of Italy?" false
                                   (two_file_pipeline answering_backend)) =
    Ok {| res_response := "Paris."; res_sources := ["notes.txt"; "README.md"];
          num_sources := 2; memory_length := n; success := true |}.
Proof.
  split; [reflexivity |]. split; [reflexivity |]. split; [reflexivity |].
  split; [reflexivity |].
  exact (@query_without_memory_prompt answering_backend start_of_2025 "And of Italy?"
           (two_file_pipeline answering_backend)
           (mkChain (B := answering_backend) two_documents) two_documents
           "Paris." eq_refl eq_refl eq_refl eq_refl).
Defined.

Lemma ingest_failure_atomic_witness :
  ingest_documents [empty_txt; broken_pdf] (chatted_pipeline strict_backend) =
    (Raise (Exception "list index out of range"), chatted_pipeline strict_backend) /\
  batch_documents (B := strict_backend) [empty_txt; broken_pdf] <> [] /\
  chatted_pipeline strict_backend = chatted_pipeline strict_backend.
Proof.
  assert (Hraise : ingest_documents [empty_txt; broken_pdf] (chatted_pipeline strict_backend) =
                   (Raise (Exception "list index out of range"),
                    chatted_pipeline strict_backend)) by reflexivity.
  split; [exact Hraise |]. split; [discriminate |].
  exact (@ingest_failure_atomic strict_backend [empty_txt; broken_pdf]
           (chatted_pipeline strict_backend) _ _ Hraise).
Defined.

Lemma ingest_success_witness :
  batch_documents (B := answering_backend) [broken_pdf; readme_md] <> [] /\
  fst (ingest_documents [broken_pdf; readme_md] (chatted_pipeline answering_backend)) =
    Ok {| ing_processed_files := ["README.md"]; total_chunks := 1;
          ing_errors := ["Error with scan.pdf: invalid pdf header"];
          ing_success := true |} /\
  memory (exec (ingest_documents [broken_pdf; readme_md])
               (chatted_pipeline answering_backend)) =
    memory (chatted_pipeline answering_backend) /\
  option_map (map page_content)
    (vectorstore (exec (ingest_documents [broken_pdf; readme_md])
                       (chatted_pipeline answering_backend))) =
    Some ["DocRAG answers from your documents."].
Proof.
  assert (Hsome : batch_documents (B := answering_backend) [broken_pdf; readme_md] <> [])
    by discriminate.
  split; [exact Hsome |].
  pose proof (@ingest_success answering_backend [broken_pdf; readme_md]
                (chatted_pipeline answering_backend) _ Hsome eq_refl) as Hingest.
  unfold exec. rewrite Hingest. repeat split; reflexivity.
Defined.

Lemma unloaded_log_is_empty_witness :
  documents_loaded (run_operations operations_ending_in_reset
                                   (@new_pipeline answering_backend)) = false /\
  memory (run_operations operations_ending_in_reset (@new_pipeline answering_backend)) = [].
Proof.
  split; [reflexivity |].
  exact (@unloaded_log_is_empty answering_backend operations_ending_in_reset eq_refl).
Defined.

Lemma reset_then_status_witness :
  1 <= max_memory (chatted_pipeline answering_backend) /\
  fst (get_status (exec reset (chatted_pipeline answering_backend))) =
  Ok {| st_documents_loaded := false; vectorstore_ready := false;
        rag_chain_ready := false;
        memory_status := {| total_exchanges := 0; memory_empty := true;
                            memory_full := false; latest_exchange_time := None |};
        max_memory_length := 20 |}.
Proof.
  assert (Hcap : 1 <= max_memory (chatted_pipeline answering_backend))
    by (vm_compute; discriminate).
  split; [exact Hcap |].
  exact (reset_then_status (chatted_pipeline answering_backend) Hcap).
Defined.

Lemma upload_files_failure_atomic_witness :
  status_of (fst (Api.upload_files [empty_txt] (chatted_pipeline strict_backend))) <> 200 /\
  fst (Api.upload_files [empty_txt] (chatted_pipeline strict_backend)) =
    HTTPException 500 "Error processing files: list index out of range" /\
  snd (Api.upload_files [empty_txt] (chatted_pipeline strict_backend)) =
    chatted_pipeline strict_backend.
Proof.
  assert (Hstatus : status_of (fst (Api.upload_files [empty_txt]
                                      (chatted_pipeline strict_backend))) <> 200)
    by (vm_compute; discriminate).
  split; [exact Hstatus |]. split; [reflexivity |].
  exact (@upload_files_failure_atomic strict_backend [empty_txt]
           (chatted_pipeline strict_backend) Hstatus).
Defined.

Lemma upload_files_no_documents_witness :
  [broken_pdf] <> [] /\
  batch_documents (B := answering_backend) [broken_pdf] = [] /\
  Api.upload_files [broken_pdf] (@new_pipeline answering_backend) =
    (HTTPException 500 "Error processing files: No documents processed",
     @new_pipeline answering_backend).
Proof.
  assert (Hfiles : [broken_pdf] <> []) by discriminate.
  split; [exact Hfiles |]. split; [reflexivity |].
  exact (@upload_files_no_documents answering_backend [broken_pdf]
           (@new_pipeline answering_backend) Hfiles eq_refl).
Defined.

Lemma chat_without_memory_length_witness :
  1 <= max_memory (exec (query start_of_2025 "And of Italy?")
                        (chatted_pipeline answering_backend)) /\
  len (memory (exec (query start_of_2025 "And of Italy?")
                    (chatted_pipeline answering_backend))) = 2 /\
  fst (Api.chat_without_memory start_of_2025 "And of Spain?"
         (exec (query start_of_2025 "And of Italy?")
               (chatted_pipeline answering_backend))) =
    Returned {| cr_response := "Paris."; cr_sources := ["notes.txt"];
                cr_num_sources := 1; cr_memory_length := 1 |} /\
  cr_memory_length {| cr_response := "Paris."; cr_sources := ["notes.txt"];
                      cr_num_sources := 1; cr_memory_length := 1 |} = 1.
Proof.
  assert (Hcap : 1 <= max_memory (exec (query start_of_2025 "And of Italy?")
                                       (chatted_pipeline answering_backend)))
    by (vm_compute; discriminate).
  split; [exact Hcap |]. split; [reflexivity |]. split; [reflexivity |].
  exact (@chat_without_memory_length answering_backend start_of_2025 "And of Spain?"
           (exec (query start_of_2025 "And of Italy?")
                 (chatted_pipeline answering_backend)) _ Hcap eq_refl).
Defined.

(** Scenario: the capacity handler on a log of ten entries. *)
Example api_set_memory_length_3_of_10 :
  fst (Api.set_memory_length 3
         (add_many 10 start_of_2025 "q" "r" [] (@new_pipeline answering_backend))) =
    Returned "Memory length set to 3" /\
  fst (Api.set_memory_length 0
         (add_many 10 start_of_2025 "q" "r" [] (@new_pipeline answering_backend))) =
    HTTPException 400 "Memory length must be at least 1" /\
  fst (Api.upload_files [notes_txt; broken_pdf; readme_md]
                        (@new_pipeline answering_backend)) =
    Returned {| Api.message := "Successfully processed 2 files with 2 chunks";
                Api.up_processed_files := ["notes.txt"; "README.md"];
                Api.up_total_chunks := 2;
                Api.up_errors := ["Error with scan.pdf: invalid pdf header"] |}.
Proof. repeat split; reflexivity. Qed.
